(** * Crank-angle kinematics and four-stroke phase model

    A shallow embedding of the kinematic core shared by the variants of the
    inline-4 engine animation:

    - [Glfw]   : src/src/engine_sim.cpp   (GLFW variant, firing-order offsets)
    - [Glut2D] : src/unnamed/part_000     (2D GLUT variant with landing page)
    - [Glut3D] : src/unnamed/part_002 and part_001 (3D GLUT variants; the
                 functions modelled here are textually identical in both)

    The C++ code computes on [float].  Here every [float] is an exact real
    number ([R]): arithmetic is exact, [std::fmod] is the truncated
    remainder, [std::sin], [std::cos] and [std::sqrt] are the real
    functions, and [M_PI] is [PI].  Rounding is not modelled. *)

From Stdlib Require Import Reals Lra Lia ZArith Bool List Ascii String Psatz.

Open Scope string_scope.
Open Scope bool_scope.
Open Scope R_scope.

(** ** The C library on reals *)

(** Truncation toward zero, as an integer. *)
Definition Rtrunc (x : R) : Z :=
  if Rle_dec 0 x then Int_part x else (- Int_part (- x))%Z.

(** [std::fmod (x, y)]: [x - n * y] where [n] is [x / y] with its fractional
    part cut off; the result has the sign of [x]. *)
Definition fmod (x y : R) : R := x - IZR (Rtrunc (x / y)) * y.

(** [glm::radians]. *)
Definition radians (degrees : R) : R := degrees * PI / 180.

(** ** Comparisons of the source, as booleans *)

Definition Rltb (x y : R) : bool := if Rlt_dec x y then true else false.
Definition Rgtb (x y : R) : bool := if Rgt_dec x y then true else false.
Definition Rgeb (x y : R) : bool := if Rge_dec x y then true else false.
Definition Rleb (x y : R) : bool := if Rle_dec x y then true else false.

(** ** src/src/engine_sim.cpp *)

Module Glfw.

(** Engine geometry. *)
Definition STROKE : R := 1.
Definition CRANK_RADIUS : R := 0.5.
Definition CONROD_LENGTH : R := 2.
Definition NUM_CYLINDERS : Z := 4.

(** Engine simulation state (the globals of the file). *)
Record EngineState : Set := mkState {
  engine_speed_rpm : R;
  crank_angle_degrees : R;
  is_running : bool
}.

Definition initial_state : EngineState := mkState 1000 0 false.

(** The body of [if (is_running)] in the render loop of [main]: the new
    value of [crank_angle_degrees]. *)
Definition advance (crank_angle_degrees engine_speed_rpm delta_time : R) : R :=
  let degrees_per_second := engine_speed_rpm * 6 in
  let crank_angle_degrees :=
    crank_angle_degrees + degrees_per_second * delta_time in
  if Rgeb crank_angle_degrees 720
  then crank_angle_degrees - 720
  else crank_angle_degrees.

(** The simulation update of the render loop in [main], on the whole state. *)
Definition update_simulation (s : EngineState) (delta_time : R) : EngineState :=
  if is_running s
  then mkState (engine_speed_rpm s)
               (advance (crank_angle_degrees s) (engine_speed_rpm s) delta_time)
               (is_running s)
  else s.

(** The argument of [std::sqrt] in [get_piston_position], for a crank
    radius [Rc] and a rod length [Lc]. *)
Definition radicand (Rc Lc angle_rad : R) : R :=
  let sin_sq := (sin angle_rad) ^ 2 in
  1 - (Rc / Lc) ^ 2 * sin_sq.

(** [get_piston_position] with the geometry as parameters. *)
Definition piston_position (Rc Lc angle_rad : R) : R :=
  let displacement :=
    - Rc * cos angle_rad + Lc * sqrt (radicand Rc Lc angle_rad) in
  displacement.

Definition get_piston_position (angle_rad : R) : R :=
  piston_position CRANK_RADIUS CONROD_LENGTH angle_rad.

(** The piston position at a crank angle in degrees, as
    [draw_piston_assembly] computes it ([glm::radians], then
    [get_piston_position]). *)
Definition pistonDisplacement (angleDeg Rc Lc : R) : R :=
  piston_position Rc Lc (radians angleDeg).

(** The phase offset [get_stroke_name] gives a cylinder. *)
Definition phase_offset (cylinder_index : Z) : R :=
  let phase_offset := 0 in
  let phase_offset := if (cylinder_index =? 1)%Z then 540 else phase_offset in
  let phase_offset := if (cylinder_index =? 2)%Z then 180 else phase_offset in
  let phase_offset := if (cylinder_index =? 3)%Z then 360 else phase_offset in
  phase_offset.

(** [get_stroke_name]; the global [crank_angle_degrees] it reads is an
    argument. *)
Definition get_stroke_name (crank_angle_degrees : R) (cylinder_index : Z)
  : string :=
  let effective_angle :=
    fmod (crank_angle_degrees + phase_offset cylinder_index) 720 in
  if Rgeb effective_angle 0 && Rltb effective_angle 180 then "INTAKE"
  else if Rgeb effective_angle 180 && Rltb effective_angle 360 then "COMPRESSION"
  else if Rgeb effective_angle 360 && Rltb effective_angle 540 then "POWER/COMBUSTION"
  else "EXHAUST".

(** Step 1 of [draw_piston_assembly]: the crank pin [(crank_x, crank_y)],
    the piston centre [piston_y], the sine of the rod angle, the rod angle
    and the base position of the piston head. *)
Definition crank_x (angle_rad : R) : R := CRANK_RADIUS * sin angle_rad.
Definition crank_y (angle_rad : R) : R := - CRANK_RADIUS * cos angle_rad.
Definition sin_phi (angle_rad : R) : R :=
  - (CRANK_RADIUS / CONROD_LENGTH) * sin angle_rad.
Definition phi_rad (angle_rad : R) : R := asin (sin_phi angle_rad).
Definition piston_pos_y (crank_angle_degrees : R) : R :=
  let angle_rad := radians crank_angle_degrees in
  let piston_y := get_piston_position angle_rad in
  piston_y + STROKE / 2.

(** What one pass of the render loop reads from outside: the clock and the
    three keys [processInput] polls. *)
Record FrameInput : Set := mkFrame {
  current_time : R;
  key_escape : bool;
  key_space : bool;
  key_r : bool
}.

(** The program between two passes of the loop. *)
Record Program : Set := mkProgram {
  engine : EngineState;
  last_frame_time : R;
  window_should_close : bool
}.

Definition initial_program : Program := mkProgram initial_state 0 false.

Definition processInput (f : FrameInput) (p : Program) : Program :=
  let close := if key_escape f then true else window_should_close p in
  let e := engine p in
  let running := if key_space f then negb (is_running e) else is_running e in
  let e := mkState (engine_speed_rpm e) (crank_angle_degrees e) running in
  let e := if key_r f then mkState (engine_speed_rpm e) 0 false else e in
  mkProgram e (last_frame_time p) close.

(** The body of the render loop: timing, input, update. *)
Definition frame (p : Program) (f : FrameInput) : Program :=
  let delta_time := current_time f - last_frame_time p in
  let p := mkProgram (engine p) (current_time f) (window_should_close p) in
  let p := processInput f p in
  mkProgram (update_simulation (engine p) delta_time)
            (last_frame_time p) (window_should_close p).

(** The render loop over the inputs of successive passes; it stops once the
    window is to close. *)
Fixpoint main_loop (p : Program) (fs : list FrameInput) : Program :=
  match fs with
  | nil => p
  | (f :: fs)%list =>
      if window_should_close p then p else main_loop (frame p f) fs
  end.

(** The clock never runs backwards. *)
Fixpoint clock_from (t : R) (fs : list FrameInput) : Prop :=
  match fs with
  | nil => True
  | (f :: fs)%list => t <= current_time f /\ clock_from (current_time f) fs
  end.

End Glfw.

(** ** src/unnamed/part_000 *)

Module Glut2D.

Definition crankSpeedDegPerSec : R := 90.

Inductive AppState : Set := LANDING | ANIMATION.

Record TimerState : Set := mkTimer {
  appState : AppState;
  crankAngle : R;
  lastTime : Z
}.

(** The first two statements of [getPhaseKindForCylinder]: the remainder
    modulo 720, moved up by 720 when negative. *)
Definition wrap720 (x : R) : R :=
  let a := fmod x 720 in
  if Rltb a 0 then a + 720 else a.

Definition getPhaseKindForCylinder (angleDeg phaseOffsetDeg : R) : Z :=
  let a := wrap720 (angleDeg + phaseOffsetDeg) in
  if Rltb a 180 then 0%Z
  else if Rltb a 360 then 1%Z
  else if Rltb a 540 then 2%Z
  else 3%Z.

(** The angle update of [timer], for an elapsed time of [dt]
    milliseconds. *)
Definition timer_advance (crankAngle : R) (dt : Z) : R :=
  let crankAngle := crankAngle + crankSpeedDegPerSec * (IZR dt / 1000) in
  if Rgtb crankAngle 720 then fmod crankAngle 720 else crankAngle.

(** [timer], where [t] is the reading of the millisecond clock. *)
Definition timer (s : TimerState) (t : Z) : TimerState :=
  match appState s with
  | ANIMATION =>
      let lastTime := if (lastTime s =? 0)%Z then t else lastTime s in
      let dt := (t - lastTime)%Z in
      mkTimer ANIMATION (timer_advance (crankAngle s) dt) t
  | LANDING => s
  end.

(** Visual stroke and crank geometry. *)
Definition stroke : R := 80.
Definition crankRadius : R := stroke / 2.
Definition numCyl : Z := 4.

Definition pistonPositionForCrank (baseTopY angleDeg phaseOffsetDeg : R) : R :=
  let a := (angleDeg + phaseOffsetDeg) * PI / 180 in
  let Rc := crankRadius in
  let disp := Rc - Rc * cos a in
  let smallCOR := (1 - cos a) * (Rc * 0.15) in
  let total := baseTopY - disp - smallCOR in
  total.


End Glut2D.

(** ** src/unnamed/part_000: input, landing page and timer on the whole
    program state *)

Module Glut2DApp.

Definition btnW : R := 260.
Definition btnH : R := 56.
Definition GLUT_LEFT_BUTTON : Z := 0.
Definition GLUT_DOWN : Z := 0.

(** The globals the callbacks read and write. *)
Record App : Set := mkApp {
  winH : Z;
  crankAngle : R;
  crankSpeedDegPerSec : R;
  lastTime : Z;
  appState : Glut2D.AppState;
  btnX : R;
  btnY : R;
  hoverBtn : bool
}.

(** The globals as [main] leaves them before the event loop, [t0] being the
    clock reading it stores in [lastTime]. *)
Definition initial (t0 : Z) : App :=
  mkApp 360 0 90 t0 Glut2D.LANDING 0 0 false.

(** The angle update of [timer] at a speed of [speed] degrees per second. *)
Definition timer_advance_at (speed crankAngle : R) (dt : Z) : R :=
  let crankAngle := crankAngle + speed * (IZR dt / 1000) in
  if Rgtb crankAngle 720 then fmod crankAngle 720 else crankAngle.

(** [timer], where [t] is the reading of the millisecond clock. *)
Definition timer (t : Z) (s : App) : App :=
  match appState s with
  | Glut2D.ANIMATION =>
      let lastTime := if (lastTime s =? 0)%Z then t else lastTime s in
      let dt := (t - lastTime)%Z in
      mkApp (winH s)
            (timer_advance_at (crankSpeedDegPerSec s) (crankAngle s) dt)
            (crankSpeedDegPerSec s) t (appState s) (btnX s) (btnY s)
            (hoverBtn s)
  | Glut2D.LANDING => s
  end.

(** [keyboard]; [now] is the clock reading, [None] is [exit(0)]. *)
Definition keyboard (key : ascii) (now : Z) (s : App) : option App :=
  match appState s with
  | Glut2D.LANDING =>
      if (key =? "013")%char || (key =? "010")%char
      then Some (mkApp (winH s) (crankAngle s) (crankSpeedDegPerSec s) now
                       Glut2D.ANIMATION (btnX s) (btnY s) (hoverBtn s))
      else if (key =? "027")%char then None
      else Some s
  | Glut2D.ANIMATION =>
      let with_speed v :=
        Some (mkApp (winH s) (crankAngle s) v (lastTime s) (appState s)
                    (btnX s) (btnY s) (hoverBtn s)) in
      if (key =? "027")%char then None
      else if (key =? " ")%char then
        if Rgtb (crankSpeedDegPerSec s) 1 then with_speed 0
        else with_speed 120
      else if (key =? "f")%char then
        with_speed (crankSpeedDegPerSec s + 30)
      else if (key =? "s")%char then
        with_speed (Rmax 0 (crankSpeedDegPerSec s - 30))
      else if (key =? "m")%char || (key =? "M")%char then
        Some (mkApp (winH s) (crankAngle s) (crankSpeedDegPerSec s)
                    (lastTime s) Glut2D.LANDING (btnX s) (btnY s)
                    (hoverBtn s))
      else Some s
  end.

(** The test [passiveMouse] and [mouseClick] share: is the window point
    [(x, y)] on the start button? *)
Definition on_button (s : App) (x y : Z) : bool :=
  let wx := IZR x in
  let wy := IZR (winH s - y) in
  let bx := btnX s - btnW / 2 in
  let by_ := btnY s - btnH / 2 in
  Rgeb wx bx && Rleb wx (bx + btnW) && Rgeb wy by_ && Rleb wy (by_ + btnH).

Definition passiveMouse (x y : Z) (s : App) : App :=
  let hovered := on_button s x y in
  if negb (Bool.eqb hovered (hoverBtn s))
  then mkApp (winH s) (crankAngle s) (crankSpeedDegPerSec s) (lastTime s)
             (appState s) (btnX s) (btnY s) hovered
  else s.

Definition mouseClick (button state x y : Z) (now : Z) (s : App) : App :=
  match appState s with
  | Glut2D.LANDING =>
      if (button =? GLUT_LEFT_BUTTON)%Z && (state =? GLUT_DOWN)%Z then
        let clicked := on_button s x y in
        if clicked
        then mkApp (winH s) (crankAngle s) (crankSpeedDegPerSec s) now
                   Glut2D.ANIMATION (btnX s) (btnY s) (hoverBtn s)
        else s
      else s
  | Glut2D.ANIMATION => s
  end.

(** What [display] writes: on the landing page [drawLandingPage] places the
    button. *)
Definition display (s : App) : App :=
  match appState s with
  | Glut2D.LANDING =>
      mkApp (winH s) (crankAngle s) (crankSpeedDegPerSec s) (lastTime s)
            (appState s) 160 (IZR (winH s) / 2 - 20) (hoverBtn s)
  | Glut2D.ANIMATION => s
  end.

Definition reshape (h : Z) (s : App) : App :=
  mkApp h (crankAngle s) (crankSpeedDegPerSec s) (lastTime s) (appState s)
        (btnX s) (btnY s) (hoverBtn s).

(** The callbacks GLUT may invoke. *)
Inductive Event : Set :=
| EvKeyboard (key : ascii)
| EvPassiveMouse (x y : Z)
| EvMouseClick (button state x y : Z)
| EvTimer
| EvDisplay
| EvReshape (h : Z).

(** One callback, at the clock reading [now]. *)
Definition dispatch (now : Z) (e : Event) (s : App) : option App :=
  match e with
  | EvKeyboard key => keyboard key now s
  | EvPassiveMouse x y => Some (passiveMouse x y s)
  | EvMouseClick button state x y => Some (mouseClick button state x y now s)
  | EvTimer => Some (timer now s)
  | EvDisplay => Some (display s)
  | EvReshape h => Some (reshape h s)
  end.

(** The event loop over a trace of time-stamped callbacks; [None] once the
    program has exited. *)
Fixpoint mainLoop (s : App) (trace : list (Z * Event)) : option App :=
  match trace with
  | nil => Some s
  | ((now, e) :: trace)%list =>
      match dispatch now e s with
      | Some s' => mainLoop s' trace
      | None => None
      end
  end.

(** The clock readings of a trace never decrease, from [t] on. *)
Fixpoint clock_from (t : Z) (trace : list (Z * Event)) : Prop :=
  match trace with
  | nil => True
  | ((now, _) :: trace)%list => (t <= now)%Z /\ clock_from now trace
  end.

(** What every callback keeps, [t] being the latest clock reading. *)
Definition app_inv (t : Z) (s : App) : Prop :=
  0 <= crankAngle s <= 720
  /\ 0 <= crankSpeedDegPerSec s
  /\ (lastTime s <= t)%Z.

End Glut2DApp.

(** ** src/unnamed/part_002 (and part_001) *)

Module Glut3D.

Definition NUM_CYL : nat := 4.
Definition cylPhase : list R := (0 :: 180 :: 360 :: 540 :: nil)%list.

(** The argument of [std::sqrt] in [getPistonHeight], for a crank radius
    [Rc] and a rod length [Lc]. *)
Definition radicand (Rc Lc th : R) : R :=
  let s := sin th in
  Lc * Lc - Rc * Rc * s * s.

(** The value [y] of [getPistonHeight], for a crank radius [Rc] and a rod
    length [Lc]. *)
Definition rod_crank_height (Rc Lc th : R) : R :=
  let c := cos th in
  Rc * c + sqrt (radicand Rc Lc th).

Definition getPistonHeight (angleDeg : R) : R :=
  let Rc := 0.75 in
  let Lc := 2.4 in
  let th := angleDeg * PI / 180 in
  let y := rod_crank_height Rc Lc th in
  let minY := Lc - Rc in
  let maxY := Lc + Rc in
  let t := (y - minY) / (maxY - minY) in
  1.5 + t * 3.2.

(** [getValveStates]; the two reference parameters are the result,
    [(intakeLift, exhaustLift)]. *)
Definition getValveStates (angleDeg : R) : R * R :=
  let a := fmod angleDeg 720 in
  let intakeLift := 0 in
  let exhaustLift := 0 in
  let intakeLift := if Rltb a 180 then 1 else intakeLift in
  let exhaustLift := if Rgeb a 540 then 1 else exhaustLift in
  (intakeLift, exhaustLift).

Record IdleState : Set := mkIdle {
  crankAngle : R;
  rpm : R;
  lastTimeMs : Z
}.

(** The angle update of [idle], for [dtMs] elapsed milliseconds. *)
Definition idle_advance (crankAngle rpm dtMs : R) : R :=
  let degPerMs := rpm * 360 / 60000 in
  let crankAngle := crankAngle + degPerMs * dtMs in
  if Rgeb crankAngle 720 then crankAngle - 720 else crankAngle.

(** [idle] up to the angle update, where [now] is the reading of the
    millisecond clock (the smoke particles are left out). *)
Definition idle (s : IdleState) (now : Z) : IdleState :=
  let lastTimeMs := if (lastTimeMs s =? 0)%Z then now else lastTimeMs s in
  let dtMs := IZR (now - lastTimeMs) in
  mkIdle (idle_advance (crankAngle s) (rpm s) dtMs) (rpm s) now.

Definition cylX : list R := (-3 :: -1 :: 1 :: 3 :: nil)%list.

(** The window of the cycle in which [idle] lets a cylinder smoke. *)
Definition smoke_window (localAngle : R) : bool :=
  let phase := fmod localAngle 720 in
  Rgeb phase 540 && Rltb phase 720.

(** The window in which [display] draws the combustion flame. *)
Definition flame_visible (localAngle : R) : bool :=
  let phase := fmod localAngle 720 in
  Rgeb phase 360 && Rltb phase 540.

(** The alpha of the flame drawn by [display]. *)
Definition flicker (localAngle : R) : R :=
  let phase := fmod localAngle 720 in
  let t := (phase - 360) / 180 in
  0.35 + 0.25 * sin (t * 6).

Definition spawnChance (rpm : R) : R := 0.03 + (rpm / 4000) * 0.05.

End Glut3D.

(** ** src/unnamed/part_002: smoke particles, controls and [idle] on the
    whole program state *)

Module Glut3DApp.

Record SmokeParticle : Set := mkSmoke {
  active : bool;
  x : R; y : R; z : R;
  vx : R; vy : R; vz : R;
  life : R
}.

Definition MAX_SMOKE : nat := 400.

(** The pool as the program starts: a zero-initialised global array. *)
Definition smoke0 : list SmokeParticle :=
  List.repeat (mkSmoke false 0 0 0 0 0 0 0) MAX_SMOKE.

(** The source of [(float)std::rand() / RAND_MAX]: the [n]-th call of the
    run yields [rnd n]. *)
Definition Rand : Type := nat -> R.

(** What [spawnSmoke] writes into a free slot; [u1], [u2], [u3] are the
    three random draws in the order the code makes them. *)
Definition fresh_particle (px py pz u1 u2 u3 : R) : SmokeParticle :=
  let angle := u1 * 2 * PI in
  let speed := 0.3 + 0.2 * u2 in
  mkSmoke true px py pz
          (cos angle * speed * 0.1)
          (0.5 + 0.3 * u3)
          (sin angle * speed * 0.1)
          1.

(** [spawnSmoke]: the first inactive slot is filled; [n] counts the calls
    of [rand] made so far. *)
Fixpoint spawnSmoke (rnd : Rand) (px py pz : R)
    (smoke : list SmokeParticle) (n : nat) : list SmokeParticle * nat :=
  match smoke with
  | nil => (nil, n)
  | (p :: rest)%list =>
      if negb (active p)
      then ((fresh_particle px py pz (rnd n) (rnd (S n)) (rnd (S (S n)))
             :: rest)%list, (n + 3)%nat)
      else let (rest', n') := spawnSmoke rnd px py pz rest n in
           ((p :: rest')%list, n')
  end.

(** The body of the loop of [updateSmoke]. *)
Definition updateParticle (dtSeconds : R) (p : SmokeParticle) : SmokeParticle :=
  if negb (active p) then p
  else
    let life' := life p - dtSeconds * 0.35 in
    if Rleb life' 0
    then mkSmoke false (x p) (y p) (z p) (vx p) (vy p) (vz p) life'
    else mkSmoke true
                 (x p + vx p * dtSeconds)
                 (y p + vy p * dtSeconds)
                 (z p + vz p * dtSeconds)
                 (vx p * (1 - 0.3 * dtSeconds))
                 (vy p)
                 (vz p * (1 - 0.3 * dtSeconds))
                 life'.

Definition updateSmoke (dtSeconds : R) (smoke : list SmokeParticle)
  : list SmokeParticle :=
  List.map (updateParticle dtSeconds) smoke.


(** The number of particles in flight. *)
Definition in_flight (smoke : list SmokeParticle) : nat :=
  List.length (List.filter active smoke).

(** The globals the callbacks read and write. *)
Record Sim : Set := mkSim {
  crankAngle : R;
  rpm : R;
  lastTimeMs : Z;
  camRotX : R;
  camRotY : R;
  camZoom : R;
  smoke : list SmokeParticle;
  randCalls : nat
}.

Definition initial : Sim := mkSim 0 250 0 (-35) 20 20 smoke0 0.

(** [keyboard]; [None] is [std::exit(0)]. *)
Definition keyboard (key : ascii) (s : Sim) : option Sim :=
  let with_cam rx ry zoom :=
    Some (mkSim (crankAngle s) (rpm s) (lastTimeMs s) rx ry zoom
                (smoke s) (randCalls s)) in
  let with_rpm v :=
    Some (mkSim (crankAngle s) v (lastTimeMs s) (camRotX s) (camRotY s)
                (camZoom s) (smoke s) (randCalls s)) in
  if (key =? "027")%char then None
  else if (key =? "w")%char then with_cam (camRotX s) (camRotY s + 2) (camZoom s)
  else if (key =? "s")%char then with_cam (camRotX s) (camRotY s - 2) (camZoom s)
  else if (key =? "a")%char then with_cam (camRotX s - 2) (camRotY s) (camZoom s)
  else if (key =? "d")%char then with_cam (camRotX s + 2) (camRotY s) (camZoom s)
  else if (key =? "+")%char || (key =? "=")%char then
    let camZoom := camZoom s - 0.5 in
    with_cam (camRotX s) (camRotY s) (if Rltb camZoom 12 then 12 else camZoom)
  else if (key =? "-")%char then
    let camZoom := camZoom s + 0.5 in
    with_cam (camRotX s) (camRotY s) (if Rgtb camZoom 28 then 28 else camZoom)
  else if (key =? "z")%char then
    let rpm := rpm s - 40 in
    with_rpm (if Rltb rpm 80 then 80 else rpm)
  else if (key =? "x")%char then
    let rpm := rpm s + 40 in
    with_rpm (if Rgtb rpm 3500 then 3500 else rpm)
  else if (key =? "1")%char then with_rpm 150
  else if (key =? "2")%char then with_rpm 400
  else if (key =? "3")%char then with_rpm 900
  else Some s.

(** One pass of the cylinder loop of [idle]: cylinder at [cx] with phase
    offset [phase0] may emit one particle. *)
Definition exhaust_smoke (rnd : Rand) (crankAngle rpm : R)
    (st : list SmokeParticle * nat) (cyl : R * R)
  : list SmokeParticle * nat :=
  let (cx, phase0) := cyl in
  let (smoke, n) := st in
  let localAngle := crankAngle + phase0 in
  if Glut3D.smoke_window localAngle then
    let r := rnd n in
    if Rltb r (Glut3D.spawnChance rpm)
    then spawnSmoke rnd (cx + 0.7) 5.9 (-0.5) smoke (S n)
    else (smoke, S n)
  else (smoke, n).

(** [idle], where [now] is the reading of the millisecond clock. *)
Definition idle (rnd : Rand) (now : Z) (s : Sim) : Sim :=
  let lastTimeMs := if (lastTimeMs s =? 0)%Z then now else lastTimeMs s in
  let dtMs := IZR (now - lastTimeMs) in
  let dtSeconds := dtMs / 1000 in
  let crankAngle := Glut3D.idle_advance (crankAngle s) (rpm s) dtMs in
  let (smoke, n) :=
    List.fold_left (exhaust_smoke rnd crankAngle (rpm s))
                   (List.combine Glut3D.cylX Glut3D.cylPhase)
                   (smoke s, randCalls s) in
  mkSim crankAngle (rpm s) now (camRotX s) (camRotY s) (camZoom s)
        (updateSmoke dtSeconds smoke) n.

(** The callbacks GLUT may invoke. *)
Inductive Event : Set :=
| EvKeyboard (key : ascii)
| EvIdle.

Definition dispatch (rnd : Rand) (now : Z) (e : Event) (s : Sim) : option Sim :=
  match e with
  | EvKeyboard key => keyboard key s
  | EvIdle => Some (idle rnd now s)
  end.

Fixpoint mainLoop (rnd : Rand) (s : Sim) (trace : list (Z * Event))
  : option Sim :=
  match trace with
  | nil => Some s
  | ((now, e) :: trace)%list =>
      match dispatch rnd now e s with
      | Some s' => mainLoop rnd s' trace
      | None => None
      end
  end.

(** Successive readings of the clock by [idle] lie at most [gap]
    milliseconds apart and never decrease, from [t] on; key presses may
    come at any time. *)
Fixpoint idle_gaps (gap t : Z) (trace : list (Z * Event)) : Prop :=
  match trace with
  | nil => True
  | ((now, EvIdle) :: trace)%list =>
      (t <= now <= t + gap)%Z /\ idle_gaps gap now trace
  | ((_, EvKeyboard _) :: trace)%list => idle_gaps gap t trace
  end.

(** The range the keyboard keeps the controls in. *)
Definition controls_ok (s : Sim) : Prop :=
  80 <= rpm s <= 3500 /\ 12 <= camZoom s <= 28.

(** What a run with short idle gaps keeps, [t] being the latest reading of
    the clock by [idle]. *)
Definition run_inv (t : Z) (s : Sim) : Prop :=
  controls_ok s
  /\ 0 <= crankAngle s < 720
  /\ (lastTimeMs s = 0%Z \/ lastTimeMs s = t).


End Glut3DApp.

(** ** src/unnamed/part_001: the landing page in front of the engine of
    part_002 *)

Module Glut3DLanding.

Inductive AppState : Set := STATE_LANDING | STATE_ENGINE.

Definition BTN_WIDTH : R := 260.
Definition BTN_HEIGHT : R := 60.
Definition BTN_Y : R := 90.
Definition GLUT_LEFT_BUTTON : Z := 0.
Definition GLUT_DOWN : Z := 0.

(** The globals: the page shown, the window size, and the engine globals,
    which are those of part_002. *)
Record Page : Set := mkPage {
  appState : AppState;
  winWidth : Z;
  winHeight : Z;
  sim : Glut3DApp.Sim
}.

Definition initial : Page := mkPage STATE_LANDING 1800 1600 Glut3DApp.initial.

Definition set_lastTimeMs (t : Z) (s : Glut3DApp.Sim) : Glut3DApp.Sim :=
  Glut3DApp.mkSim (Glut3DApp.crankAngle s) (Glut3DApp.rpm s) t
                  (Glut3DApp.camRotX s) (Glut3DApp.camRotY s)
                  (Glut3DApp.camZoom s) (Glut3DApp.smoke s)
                  (Glut3DApp.randCalls s).

(** [startEngineSimulation]; [now] is the clock reading. *)
Definition startEngineSimulation (now : Z) (p : Page) : Page :=
  match appState p with
  | STATE_ENGINE => p
  | STATE_LANDING =>
      mkPage STATE_ENGINE (winWidth p) (winHeight p) (set_lastTimeMs now (sim p))
  end.

(** [keyboard]; [None] is [std::exit(0)]. *)
Definition keyboard (key : ascii) (now : Z) (p : Page) : option Page :=
  match appState p with
  | STATE_LANDING =>
      if (key =? "013")%char || (key =? " ")%char
         || (key =? "s")%char || (key =? "S")%char
      then Some (startEngineSimulation now p)
      else if (key =? "027")%char then None
      else Some p
  | STATE_ENGINE =>
      match Glut3DApp.keyboard key (sim p) with
      | Some s => Some (mkPage (appState p) (winWidth p) (winHeight p) s)
      | None => None
      end
  end.

Definition mouse (button state x y : Z) (now : Z) (p : Page) : Page :=
  match appState p with
  | STATE_ENGINE => p
  | STATE_LANDING =>
      if negb (button =? GLUT_LEFT_BUTTON)%Z || negb (state =? GLUT_DOWN)%Z
      then p
      else
        let yInv := (winHeight p - y)%Z in
        let btnX := IZR (winWidth p) / 2 - BTN_WIDTH / 2 in
        let btnY := BTN_Y in
        if Rgeb (IZR x) btnX && Rleb (IZR x) (btnX + BTN_WIDTH)
           && Rgeb (IZR yInv) btnY && Rleb (IZR yInv) (btnY + BTN_HEIGHT)
        then startEngineSimulation now p
        else p
  end.

(** [idle]: the clock is read on every call, the engine moves only on the
    engine page. *)
Definition idle (rnd : Glut3DApp.Rand) (now : Z) (p : Page) : Page :=
  match appState p with
  | STATE_ENGINE =>
      mkPage (appState p) (winWidth p) (winHeight p)
             (Glut3DApp.idle rnd now (sim p))
  | STATE_LANDING =>
      mkPage (appState p) (winWidth p) (winHeight p) (set_lastTimeMs now (sim p))
  end.

Definition reshape (w h : Z) (p : Page) : Page :=
  mkPage (appState p) w (if (h =? 0)%Z then 1%Z else h) (sim p).

Inductive Event : Set :=
| EvKeyboard (key : ascii)
| EvMouse (button state x y : Z)
| EvIdle
| EvReshape (w h : Z).

Definition dispatch (rnd : Glut3DApp.Rand) (now : Z) (e : Event) (p : Page)
  : option Page :=
  match e with
  | EvKeyboard key => keyboard key now p
  | EvMouse button state x y => Some (mouse button state x y now p)
  | EvIdle => Some (idle rnd now p)
  | EvReshape w h => Some (reshape w h p)
  end.

Fixpoint mainLoop (rnd : Glut3DApp.Rand) (p : Page) (trace : list (Z * Event))
  : option Page :=
  match trace with
  | nil => Some p
  | ((now, e) :: trace)%list =>
      match dispatch rnd now e p with
      | Some p' => mainLoop rnd p' trace
      | None => None
      end
  end.

(** Two engine states that differ at most in the stored clock reading. *)
Definition same_engine (a b : Glut3DApp.Sim) : Prop :=
  Glut3DApp.crankAngle a = Glut3DApp.crankAngle b
  /\ Glut3DApp.rpm a = Glut3DApp.rpm b
  /\ Glut3DApp.camRotX a = Glut3DApp.camRotX b
  /\ Glut3DApp.camRotY a = Glut3DApp.camRotY b
  /\ Glut3DApp.camZoom a = Glut3DApp.camZoom b
  /\ Glut3DApp.smoke a = Glut3DApp.smoke b
  /\ Glut3DApp.randCalls a = Glut3DApp.randCalls b.

End Glut3DLanding.

(** ** Stroke phases *)

Inductive StrokePhase : Set := INTAKE | COMPRESSION | POWER | EXHAUST.

(** How part_000 reads a phase kind ([drawCombustionEffect]: 0, 1, 2, and
    anything else is the exhaust). *)
Definition phase_of_kind (kind : Z) : StrokePhase :=
  if (kind =? 0)%Z then INTAKE
  else if (kind =? 1)%Z then COMPRESSION
  else if (kind =? 2)%Z then POWER
  else EXHAUST.

(** How engine_sim.cpp reads a stroke name ([draw_piston_assembly]). *)
Definition phase_of_name (stroke : string) : option StrokePhase :=
  if (stroke =? "INTAKE")%string then Some INTAKE
  else if (stroke =? "COMPRESSION")%string then Some COMPRESSION
  else if (stroke =? "POWER/COMBUSTION")%string then Some POWER
  else if (stroke =? "EXHAUST")%string then Some EXHAUST
  else None.

(** The phase a half-open 180-degree interval of [[0, 720)] stands for. *)
Definition phase_of_range (a : R) : StrokePhase :=
  if Rltb a 180 then INTAKE
  else if Rltb a 360 then COMPRESSION
  else if Rltb a 540 then POWER
  else EXHAUST.

(** * Properties *)

(** ** Comparisons *)

Lemma Rltb_spec (x y : R) : Rltb x y = true <-> x < y.
Proof. unfold Rltb. destruct (Rlt_dec x y); split; intros; lra || congruence. Qed.

Lemma Rgtb_spec (x y : R) : Rgtb x y = true <-> x > y.
Proof. unfold Rgtb. destruct (Rgt_dec x y); split; intros; lra || congruence. Qed.

Lemma Rgeb_spec (x y : R) : Rgeb x y = true <-> x >= y.
Proof. unfold Rgeb. destruct (Rge_dec x y); split; intros; lra || congruence. Qed.

(** Split on every comparison in the goal and keep the outcome as a
    hypothesis. *)
Ltac split_cmp :=
  unfold Rltb, Rgtb, Rgeb in *;
  repeat match goal with
  | |- context [Rlt_dec ?a ?b] => destruct (Rlt_dec a b)
  | |- context [Rgt_dec ?a ?b] => destruct (Rgt_dec a b)
  | |- context [Rge_dec ?a ?b] => destruct (Rge_dec a b)
  end; simpl.

(** ** Facts about [fmod] *)

Lemma Int_part_bounds (r : R) : IZR (Int_part r) <= r < IZR (Int_part r) + 1.
Proof.
  destruct (base_Int_part r) as [Hle Hgt]. lra.
Qed.

Lemma Rtrunc_nonneg (x : R) :
  0 <= x -> IZR (Rtrunc x) <= x < IZR (Rtrunc x) + 1.
Proof.
  intros Hx. unfold Rtrunc.
  destruct (Rle_dec 0 x) as [_ | Hn]; [apply Int_part_bounds | contradiction].
Qed.

Lemma Rtrunc_neg (x : R) :
  x < 0 -> IZR (Rtrunc x) - 1 < x <= IZR (Rtrunc x).
Proof.
  intros Hx. unfold Rtrunc.
  destruct (Rle_dec 0 x) as [Hp | _]; [lra |].
  rewrite opp_IZR. pose proof (Int_part_bounds (- x)). lra.
Qed.

Lemma fmod_decomp (x y : R) : x = IZR (Rtrunc (x / y)) * y + fmod x y.
Proof. unfold fmod. ring. Qed.

Lemma fmod_nonneg_range (x y : R) :
  0 <= x -> 0 < y -> 0 <= fmod x y < y.
Proof.
  intros Hx Hy.
  assert (Hq : 0 <= x / y) by (apply Rmult_le_pos; [lra | left; now apply Rinv_0_lt_compat]).
  pose proof (Rtrunc_nonneg _ Hq) as [Hlo Hhi].
  assert (Hxy : x = x / y * y) by (field; lra).
  unfold fmod. set (n := IZR (Rtrunc (x / y))) in *.
  split; nra.
Qed.

Lemma fmod_neg_range (x y : R) :
  x < 0 -> 0 < y -> - y < fmod x y <= 0.
Proof.
  intros Hx Hy.
  assert (Hi : 0 < / y) by now apply Rinv_0_lt_compat.
  assert (Hq : x / y < 0) by (unfold Rdiv; nra).
  pose proof (Rtrunc_neg _ Hq) as [Hlo Hhi].
  assert (Hxy : x = x / y * y) by (field; lra).
  unfold fmod. set (n := IZR (Rtrunc (x / y))) in *.
  split; nra.
Qed.

(** Two integer multiples of [y] that lie less than [y] apart coincide. *)
Lemma multiples_close (j k : Z) (y : R) :
  0 < y -> - y < (IZR j - IZR k) * y < y -> j = k.
Proof.
  intros Hy [Hlo Hhi].
  assert (H1 : -1 < IZR j - IZR k < 1) by (split; nra).
  rewrite <- minus_IZR in H1. destruct H1 as [Ha Hb].
  apply lt_IZR in Ha. apply lt_IZR in Hb. lia.
Qed.

(** Adding a whole number of periods to a value already in [[0, y)]. *)
Lemma fmod_add_periods (r y : R) (k : Z) :
  0 < y -> 0 <= r < y -> (0 <= k)%Z -> fmod (r + IZR k * y) y = r.
Proof.
  intros Hy Hr Hk.
  assert (Hk' : 0 <= IZR k) by now apply IZR_le.
  assert (Hx : 0 <= r + IZR k * y) by nra.
  pose proof (fmod_nonneg_range _ _ Hx Hy) as Hm.
  pose proof (fmod_decomp (r + IZR k * y) y) as Hd.
  set (n := Rtrunc ((r + IZR k * y) / y)) in *.
  assert (Hnk : n = k).
  { apply (multiples_close n k y Hy). split; nra. }
  rewrite Hnk in Hd. lra.
Qed.

Lemma fmod_small (x y : R) : 0 <= x < y -> fmod x y = x.
Proof.
  intros Hx. assert (Hy : 0 < y) by lra.
  replace x with (x + IZR 0 * y) at 1 by (simpl; ring).
  apply fmod_add_periods; [assumption | assumption | lia].
Qed.

(** The same for a value in [(-y, 0]], going down. *)
Lemma fmod_sub_periods (r y : R) (k : Z) :
  0 < y -> - y < r <= 0 -> (0 <= k)%Z -> fmod (r - IZR k * y) y = r.
Proof.
  intros Hy Hr Hk.
  assert (Hk' : 0 <= IZR k) by now apply IZR_le.
  destruct (Req_dec (r - IZR k * y) 0) as [Hz | Hnz].
  - assert (Hk0 : k = 0%Z).
    { symmetry. apply (multiples_close 0 k y Hy). simpl. split; nra. }
    subst k. simpl in *. rewrite Hz.
    rewrite (fmod_small 0 y) by lra. lra.
  - assert (Hx : r - IZR k * y < 0) by nra.
    pose proof (fmod_neg_range _ _ Hx Hy) as Hm.
    pose proof (fmod_decomp (r - IZR k * y) y) as Hd.
    set (n := Rtrunc ((r - IZR k * y) / y)) in *.
    assert (Hnk : n = (- k)%Z).
    { apply (multiples_close n (- k) y Hy). rewrite opp_IZR. split; nra. }
    rewrite Hnk, opp_IZR in Hd. lra.
Qed.

(** ** [wrap720] *)

Section Wrap720.

Import Glut2D.

Lemma wrap720_range (x : R) : 0 <= wrap720 x < 720.
Proof.
  unfold wrap720. destruct (Rle_dec 0 x) as [Hx | Hx].
  - pose proof (fmod_nonneg_range x 720 Hx ltac:(lra)). split_cmp; lra.
  - pose proof (fmod_neg_range x 720 ltac:(lra) ltac:(lra)). split_cmp; lra.
Qed.

Lemma wrap720_fixed (x : R) : 0 <= x < 720 -> wrap720 x = x.
Proof.
  intros Hx. unfold wrap720. rewrite (fmod_small x 720 Hx).
  split_cmp; lra.
Qed.

Lemma wrap720_nonneg (x : R) : 0 <= x -> wrap720 x = fmod x 720.
Proof.
  intros Hx. unfold wrap720.
  pose proof (fmod_nonneg_range x 720 Hx ltac:(lra)). split_cmp; lra.
Qed.

(** [wrap720 x] differs from [x] by a whole number of cycles. *)
Lemma wrap720_cycles (x : R) : exists k : Z, wrap720 x = x - IZR k * 720.
Proof.
  unfold wrap720. pose proof (fmod_decomp x 720) as Hd.
  set (n := Rtrunc (x / 720)) in *.
  split_cmp.
  - exists (n - 1)%Z. rewrite minus_IZR. lra.
  - exists n. lra.
Qed.

(** It is the only such value in [[0, 720)]. *)
Lemma wrap720_unique (x r : R) (k : Z) :
  0 <= r < 720 -> x = r + IZR k * 720 -> wrap720 x = r.
Proof.
  intros Hr Hx.
  destruct (wrap720_cycles x) as [j Hj].
  pose proof (wrap720_range x) as Hw.
  assert (Hjk : j = k).
  { apply (multiples_close j k 720); [lra |]. split; nra. }
  subst j. lra.
Qed.

Lemma wrap720_add_wrap (x d : R) : wrap720 (wrap720 x + d) = wrap720 (x + d).
Proof.
  destruct (wrap720_cycles x) as [j Hj].
  destruct (wrap720_cycles (x + d)) as [k Hk].
  apply (wrap720_unique _ _ (k - j)%Z (wrap720_range (x + d))).
  rewrite minus_IZR. lra.
Qed.

End Wrap720.

(** C8. For every real [x], [wrap720] is idempotent, its result lies in
    [[0, 720)], and it is the remainder of [x] modulo 720, moved forward by
    720 exactly when that remainder is negative. *)
Theorem wrap720_idempotent_in_range (x : R) :
  Glut2D.wrap720 (Glut2D.wrap720 x) = Glut2D.wrap720 x
  /\ 0 <= Glut2D.wrap720 x < 720
  /\ ((0 <= fmod x 720 /\ Glut2D.wrap720 x = fmod x 720)
      \/ (fmod x 720 < 0 /\ Glut2D.wrap720 x = fmod x 720 + 720)).
Proof.
  pose proof (wrap720_range x) as Hr.
  split; [now apply wrap720_fixed | split; [exact Hr |]].
  unfold Glut2D.wrap720. split_cmp.
  - right. split; [assumption | reflexivity].
  - left. split; [lra | reflexivity].
Qed.

(** ** The stroke classifier *)

Section Classifier.

Import Glut2D.

Lemma getPhaseKindForCylinder_range (angleDeg phaseOffsetDeg : R) :
  phase_of_kind (getPhaseKindForCylinder angleDeg phaseOffsetDeg)
  = phase_of_range (wrap720 (angleDeg + phaseOffsetDeg)).
Proof.
  unfold getPhaseKindForCylinder, phase_of_range.
  set (a := wrap720 _). split_cmp; reflexivity.
Qed.

Lemma phase_of_range_cases (a : R) :
  0 <= a < 720 ->
  (phase_of_range a = INTAKE <-> 0 <= a < 180)
  /\ (phase_of_range a = COMPRESSION <-> 180 <= a < 360)
  /\ (phase_of_range a = POWER <-> 360 <= a < 540)
  /\ (phase_of_range a = EXHAUST <-> 540 <= a < 720).
Proof.
  intros Ha. unfold phase_of_range.
  split_cmp; repeat split; intros; try lra; try discriminate.
Qed.

Lemma phase_at (x r : R) (k : Z) :
  0 <= r < 720 -> x = r + IZR k * 720 ->
  phase_of_kind (getPhaseKindForCylinder x 0) = phase_of_range r.
Proof.
  intros Hr Hx. rewrite getPhaseKindForCylinder_range.
  f_equal. apply (wrap720_unique _ r k Hr). lra.
Qed.

End Classifier.

(** C1. For every real angle and offset, [getPhaseKindForCylinder] answers
    with the phase of the wrapped effective angle
    [a = wrap720 (angleDeg + phaseOffsetDeg)], by half-open intervals of 180
    degrees: INTAKE iff [a] is in [[0,180)], COMPRESSION iff in [[180,360)],
    POWER iff in [[360,540)], EXHAUST iff in [[540,720)].  [a] always lies
    in [[0,720)], so exactly one case applies, and a boundary value belongs
    to the higher range: 180 is COMPRESSION and 540 is EXHAUST, while
    179.999 is INTAKE and 539.999 is POWER. *)
Theorem stroke_classifier_half_open_ranges (angleDeg phaseOffsetDeg : R) :
  let a := Glut2D.wrap720 (angleDeg + phaseOffsetDeg) in
  let kind := Glut2D.getPhaseKindForCylinder angleDeg phaseOffsetDeg in
  0 <= a < 720
  /\ (0 <= kind <= 3)%Z
  /\ (phase_of_kind kind = INTAKE <-> 0 <= a < 180)
  /\ (phase_of_kind kind = COMPRESSION <-> 180 <= a < 360)
  /\ (phase_of_kind kind = POWER <-> 360 <= a < 540)
  /\ (phase_of_kind kind = EXHAUST <-> 540 <= a < 720)
  /\ phase_of_kind (Glut2D.getPhaseKindForCylinder 179.999 0) = INTAKE
  /\ phase_of_kind (Glut2D.getPhaseKindForCylinder 180 0) = COMPRESSION
  /\ phase_of_kind (Glut2D.getPhaseKindForCylinder 539.999 0) = POWER
  /\ phase_of_kind (Glut2D.getPhaseKindForCylinder 540 0) = EXHAUST.
Proof.
  intros a kind.
  pose proof (wrap720_range (angleDeg + phaseOffsetDeg)) as Ha. fold a in Ha.
  split; [exact Ha |].
  split.
  { unfold kind, Glut2D.getPhaseKindForCylinder. split_cmp; lia. }
  unfold kind. rewrite getPhaseKindForCylinder_range. fold a.
  destruct (phase_of_range_cases a Ha) as (H0 & H1 & H2 & H3).
  repeat (split; [assumption |]).
  repeat split.
  - rewrite (phase_at 179.999 179.999 0) by (simpl; lra).
    unfold phase_of_range. split_cmp; reflexivity || lra.
  - rewrite (phase_at 180 180 0) by (simpl; lra).
    unfold phase_of_range. split_cmp; reflexivity || lra.
  - rewrite (phase_at 539.999 539.999 0) by (simpl; lra).
    unfold phase_of_range. split_cmp; reflexivity || lra.
  - rewrite (phase_at 540 540 0) by (simpl; lra).
    unfold phase_of_range. split_cmp; reflexivity || lra.
Qed.

(** [get_stroke_name] of engine_sim.cpp takes the remainder without moving
    a negative one forward.  On the effective angles it is given (the crank
    angle starts at 0 and only grows, the offsets are not negative) it
    names the same phase. *)
Lemma get_stroke_name_nonneg (crank_angle_degrees : R) (cylinder_index : Z) :
  0 <= crank_angle_degrees + Glfw.phase_offset cylinder_index ->
  phase_of_name (Glfw.get_stroke_name crank_angle_degrees cylinder_index)
  = Some (phase_of_range
            (Glut2D.wrap720
               (crank_angle_degrees + Glfw.phase_offset cylinder_index))).
Proof.
  intros Hx. rewrite (wrap720_nonneg _ Hx).
  unfold Glfw.get_stroke_name, phase_of_range.
  pose proof (fmod_nonneg_range _ 720 Hx ltac:(lra)) as Hm.
  set (a := fmod _ 720) in *.
  split_cmp; reflexivity || lra.
Qed.

(** Below zero the two classifiers part: at -600 the remainder is -600,
    which [get_stroke_name] sends to its last branch. *)
Remark get_stroke_name_below_zero :
  Glfw.get_stroke_name (-600) 0 = "EXHAUST"
  /\ phase_of_kind (Glut2D.getPhaseKindForCylinder (-600) 0) = INTAKE.
Proof.
  split.
  - unfold Glfw.get_stroke_name. cbv [Glfw.phase_offset Z.eqb Pos.eqb].
    replace (-600 + 0) with (-600 - IZR 0 * 720) by (simpl; ring).
    rewrite (fmod_sub_periods (-600) 720 0) by (lra || lia).
    split_cmp; reflexivity || lra.
  - rewrite (phase_at (-600) 120 (-1)) by lra.
    unfold phase_of_range. split_cmp; reflexivity || lra.
Qed.

(** ** Firing-order offsets *)

Lemma get_stroke_name_at (crank_angle_degrees : R) (cylinder_index : Z) (a : R) :
  a = crank_angle_degrees + Glfw.phase_offset cylinder_index ->
  0 <= a < 720 ->
  phase_of_name (Glfw.get_stroke_name crank_angle_degrees cylinder_index)
  = Some (phase_of_range a).
Proof.
  intros Ha Hr. rewrite get_stroke_name_nonneg by lra.
  rewrite <- Ha, (wrap720_fixed a Hr). reflexivity.
Qed.

(** C4. With the offsets 0, 540, 180, 360 that [get_stroke_name] gives the
    cylinder indices 0, 1, 2, 3, at crank angle 0 the four cylinders are in
    INTAKE, EXHAUST, COMPRESSION and POWER: one cylinder in each phase. *)
Theorem canonical_offsets_one_cylinder_per_phase :
  List.map Glfw.phase_offset (0 :: 1 :: 2 :: 3 :: nil)%Z
  = (0 :: 540 :: 180 :: 360 :: nil)%list
  /\ Glfw.get_stroke_name 0 0 = "INTAKE"
  /\ Glfw.get_stroke_name 0 1 = "EXHAUST"
  /\ Glfw.get_stroke_name 0 2 = "COMPRESSION"
  /\ Glfw.get_stroke_name 0 3 = "POWER/COMBUSTION"
  /\ List.map (fun i => phase_of_name (Glfw.get_stroke_name 0 i))
       (0 :: 1 :: 2 :: 3 :: nil)%Z
     = (Some INTAKE :: Some EXHAUST :: Some COMPRESSION :: Some POWER :: nil)%list
  /\ List.NoDup (List.map (Glfw.get_stroke_name 0) (0 :: 1 :: 2 :: 3 :: nil)%Z).
Proof.
  assert (H0 : Glfw.get_stroke_name 0 0 = "INTAKE").
  { unfold Glfw.get_stroke_name. cbv [Glfw.phase_offset Z.eqb Pos.eqb].
    rewrite (fmod_small (0 + 0) 720) by lra. split_cmp; reflexivity || lra. }
  assert (H1 : Glfw.get_stroke_name 0 1 = "EXHAUST").
  { unfold Glfw.get_stroke_name. cbv [Glfw.phase_offset Z.eqb Pos.eqb].
    rewrite (fmod_small (0 + 540) 720) by lra. split_cmp; reflexivity || lra. }
  assert (H2 : Glfw.get_stroke_name 0 2 = "COMPRESSION").
  { unfold Glfw.get_stroke_name. cbv [Glfw.phase_offset Z.eqb Pos.eqb].
    rewrite (fmod_small (0 + 180) 720) by lra. split_cmp; reflexivity || lra. }
  assert (H3 : Glfw.get_stroke_name 0 3 = "POWER/COMBUSTION").
  { unfold Glfw.get_stroke_name. cbv [Glfw.phase_offset Z.eqb Pos.eqb].
    rewrite (fmod_small (0 + 360) 720) by lra. split_cmp; reflexivity || lra. }
  split; [reflexivity |].
  repeat (split; [assumption |]).
  simpl List.map. rewrite H0, H1, H2, H3. split; [reflexivity |].
  repeat constructor; simpl; intuition discriminate.
Qed.

(** ** The per-tick angle update *)

Section Advance.

Import Glfw.

Lemma advance_unfold (crank rpm dt : R) :
  advance crank rpm dt
  = if Rgeb (crank + rpm * 6 * dt) 720
    then crank + rpm * 6 * dt - 720
    else crank + rpm * 6 * dt.
Proof. reflexivity. Qed.

(** The single subtraction is the full wrap as long as the incremented
    angle stays below two cycles. *)
Lemma advance_is_wrap720 (crank rpm dt : R) :
  0 <= crank + rpm * 6 * dt < 1440 ->
  advance crank rpm dt = Glut2D.wrap720 (crank + rpm * 6 * dt).
Proof.
  intros Hs. rewrite advance_unfold. symmetry.
  split_cmp.
  - apply (wrap720_unique _ _ 1); simpl; lra.
  - apply wrap720_fixed; lra.
Qed.

Lemma advance_in_range (crank rpm dt : R) :
  0 <= crank + rpm * 6 * dt < 1440 -> 0 <= advance crank rpm dt < 720.
Proof.
  intros Hs. rewrite (advance_is_wrap720 _ _ _ Hs). apply wrap720_range.
Qed.

(** The update of part_002 counts in milliseconds; it is the same step. *)
Lemma idle_advance_is_advance (crank rpm dt : R) :
  Glut3D.idle_advance crank rpm (dt * 1000) = advance crank rpm dt.
Proof.
  unfold Glut3D.idle_advance. rewrite advance_unfold.
  replace (crank + rpm * 360 / 60000 * (dt * 1000))
    with (crank + rpm * 6 * dt) by field.
  reflexivity.
Qed.

(** Two ticks are one tick of the summed time, as long as the whole
    advance stays below two cycles. *)
Lemma advance_additive_below_two_cycles (crank rpm dt1 dt2 : R) :
  0 <= crank -> 0 <= rpm -> 0 <= dt1 -> 0 <= dt2 ->
  crank + rpm * 6 * (dt1 + dt2) < 1440 ->
  advance (advance crank rpm dt1) rpm dt2 = advance crank rpm (dt1 + dt2).
Proof.
  intros Hc Hr H1 H2 Hs.
  assert (Hd1 : 0 <= rpm * 6 * dt1) by nra.
  assert (Hd2 : 0 <= rpm * 6 * dt2) by nra.
  assert (Ha : 0 <= crank + rpm * 6 * dt1 < 1440) by nra.
  pose proof (advance_in_range _ _ _ Ha) as Hin.
  assert (Hle : advance crank rpm dt1 <= crank + rpm * 6 * dt1).
  { rewrite advance_unfold. split_cmp; lra. }
  rewrite (advance_is_wrap720 (advance crank rpm dt1)) by nra.
  rewrite (advance_is_wrap720 crank rpm dt1 Ha).
  rewrite (advance_is_wrap720 crank rpm (dt1 + dt2)) by nra.
  rewrite wrap720_add_wrap. f_equal. ring.
Qed.

End Advance.

(** C2. The update does not keep the crank angle in [[0, 720)] on a long
    tick.  From angle 0 at the program's 1000 rpm, a tick of 0.3 s adds
    1800 degrees and the single subtraction leaves 1080; the update of
    part_002 at its 250 rpm leaves 780 after a tick of one second; the
    update of part_000, whose test is a strict one, leaves exactly 720 when
    an ordinary tick of 16 ms starts from 718.56. *)
Theorem advance_single_subtraction_overshoots :
  Glfw.advance 0 1000 0.3 = 1080
  /\ ~ (0 <= Glfw.advance 0 1000 0.3 < 720)
  /\ Glfw.crank_angle_degrees
       (Glfw.update_simulation (Glfw.mkState 1000 0 true) 0.3) = 1080
  /\ Glut3D.crankAngle (Glut3D.idle (Glut3D.mkIdle 0 250 5000) 6000) = 780
  /\ Glut2D.crankAngle
       (Glut2D.timer (Glut2D.mkTimer Glut2D.ANIMATION 718.56 5000) 5016) = 720.
Proof.
  assert (H : Glfw.advance 0 1000 0.3 = 1080).
  { rewrite advance_unfold. split_cmp; lra. }
  split; [exact H |]. split; [rewrite H; lra |].
  split; [simpl; exact H |]. split.
  - change (Glut3D.crankAngle (Glut3D.idle (Glut3D.mkIdle 0 250 5000) 6000))
      with (Glut3D.idle_advance 0 250 1000).
    unfold Glut3D.idle_advance. split_cmp; lra.
  - change (Glut2D.crankAngle
              (Glut2D.timer (Glut2D.mkTimer Glut2D.ANIMATION 718.56 5000) 5016))
      with (Glut2D.timer_advance 718.56 16).
    unfold Glut2D.timer_advance, Glut2D.crankSpeedDegPerSec. split_cmp; lra.
Qed.

(** C3, the scenario as written fails: a tick of 0.1 s at 600 rpm from
    angle 0 ends at 360, not at 0, and cylinder 0 is not in its intake
    stroke there; the full wrap of 360 is not 0 either. *)
Lemma half_cycle_tick_is_not_intake :
  Glfw.advance 0 600 0.1 <> 0
  /\ Glfw.get_stroke_name (Glfw.advance 0 600 0.1) 0 <> "INTAKE"
  /\ Glut2D.wrap720 (0 + 600 * 6 * 0.1) <> 0.
Proof.
  assert (H : Glfw.advance 0 600 0.1 = 360).
  { rewrite advance_unfold. split_cmp; lra. }
  rewrite H. split; [lra |]. split.
  - unfold Glfw.get_stroke_name. cbv [Glfw.phase_offset Z.eqb Pos.eqb].
    rewrite (fmod_small (360 + 0) 720) by lra.
    split_cmp; discriminate || lra.
  - rewrite wrap720_fixed; lra.
Qed.

(** C3, amended.  The update takes [degrees_per_second = rpm * 6] and adds
    [degrees_per_second * delta_time]; while the incremented angle is in
    [[0, 1440)] the stored result is its [wrap720].  The update of part_002
    is the same step.  At 600 rpm a tick of 0.1 s advances the angle by
    exactly 360: from 0 the result is 360 and cylinder 0 is in its power
    stroke; a second such tick brings the angle back to 0 and cylinder 0
    back to INTAKE. *)
Theorem advance_wraps_below_two_cycles (crank rpm dt : R) :
  0 <= crank + rpm * 6 * dt < 1440 ->
  Glfw.advance crank rpm dt = Glut2D.wrap720 (crank + rpm * 6 * dt)
  /\ Glut3D.idle_advance crank rpm (dt * 1000) = Glfw.advance crank rpm dt
  /\ 600 * 6 * 0.1 = 360
  /\ Glfw.advance 0 600 0.1 = 360
  /\ Glfw.get_stroke_name (Glfw.advance 0 600 0.1) 0 = "POWER/COMBUSTION"
  /\ Glfw.advance (Glfw.advance 0 600 0.1) 600 0.1 = 0
  /\ Glfw.get_stroke_name (Glfw.advance (Glfw.advance 0 600 0.1) 600 0.1) 0
     = "INTAKE".
Proof.
  intros Hs.
  split; [now apply advance_is_wrap720 |].
  split; [apply idle_advance_is_advance |].
  split; [lra |].
  assert (H1 : Glfw.advance 0 600 0.1 = 360).
  { rewrite advance_unfold. split_cmp; lra. }
  assert (H2 : Glfw.advance 360 600 0.1 = 0).
  { rewrite advance_unfold. split_cmp; lra. }
  rewrite H1, H2. repeat split.
  - unfold Glfw.get_stroke_name. cbv [Glfw.phase_offset Z.eqb Pos.eqb].
    rewrite (fmod_small (360 + 0) 720) by lra.
    split_cmp; reflexivity || lra.
  - unfold Glfw.get_stroke_name. cbv [Glfw.phase_offset Z.eqb Pos.eqb].
    rewrite (fmod_small (0 + 0) 720) by lra.
    split_cmp; reflexivity || lra.
Qed.

Lemma advance_wraps_below_two_cycles_witness :
  0 <= 700 + 1000 * 6 * 0.1 < 1440
  /\ Glfw.advance 700 1000 0.1 = Glut2D.wrap720 (700 + 1000 * 6 * 0.1).
Proof.
  assert (H : 0 <= 700 + 1000 * 6 * 0.1 < 1440) by lra.
  split; [exact H |].
  exact (proj1 (advance_wraps_below_two_cycles 700 1000 0.1 H)).
Defined.

(** C6. Two ticks and one tick of the summed time disagree once the whole
    advance reaches two cycles: at 1000 rpm, two ticks of 0.12 s from angle
    0 each add 720 and each subtract 720, ending at 0, while one tick of
    0.24 s adds 1440 and subtracts 720 once, ending at 720. *)
Theorem advance_two_ticks_differ_from_one :
  Glfw.advance (Glfw.advance 0 1000 0.12) 1000 0.12 = 0
  /\ Glfw.advance 0 1000 (0.12 + 0.12) = 720
  /\ Glfw.advance (Glfw.advance 0 1000 0.12) 1000 0.12
     <> Glfw.advance 0 1000 (0.12 + 0.12)
  /\ Glut3D.idle_advance (Glut3D.idle_advance 0 1000 120) 1000 120
     <> Glut3D.idle_advance 0 1000 (120 + 120).
Proof.
  assert (H1 : Glfw.advance 0 1000 0.12 = 0).
  { rewrite advance_unfold. split_cmp; lra. }
  assert (H2 : Glfw.advance 0 1000 (0.12 + 0.12) = 720).
  { rewrite advance_unfold. split_cmp; lra. }
  rewrite H1, H1, H2. repeat split; try lra.
  assert (I1 : Glut3D.idle_advance 0 1000 120 = 0).
  { unfold Glut3D.idle_advance. split_cmp; lra. }
  assert (I2 : Glut3D.idle_advance 0 1000 (120 + 120) = 720).
  { unfold Glut3D.idle_advance. split_cmp; lra. }
  rewrite I1, I1, I2. lra.
Qed.

(** ** Piston kinematics *)

Section Kinematics.

Lemma radians_add_360 (theta : R) : radians (theta + 360) = radians theta + 2 * PI.
Proof. unfold radians. field. Qed.

Lemma degrees_add_360 (theta : R) : (theta + 360) * PI / 180 = theta * PI / 180 + 2 * PI.
Proof. field. Qed.

Lemma sin_add_2PI (x : R) : sin (x + 2 * PI) = sin x.
Proof. rewrite sin_plus, sin_2PI, cos_2PI. ring. Qed.

Lemma cos_add_2PI (x : R) : cos (x + 2 * PI) = cos x.
Proof. rewrite cos_plus, sin_2PI, cos_2PI. ring. Qed.

Lemma piston_position_add_2PI (Rc Lc x : R) :
  Glfw.piston_position Rc Lc (x + 2 * PI) = Glfw.piston_position Rc Lc x.
Proof.
  unfold Glfw.piston_position, Glfw.radicand.
  now rewrite sin_add_2PI, cos_add_2PI.
Qed.

Lemma rod_crank_height_add_2PI (Rc Lc x : R) :
  Glut3D.rod_crank_height Rc Lc (x + 2 * PI) = Glut3D.rod_crank_height Rc Lc x.
Proof.
  unfold Glut3D.rod_crank_height, Glut3D.radicand.
  now rewrite sin_add_2PI, cos_add_2PI.
Qed.

Lemma pistonDisplacement_add_360 (theta Rc Lc : R) :
  Glfw.pistonDisplacement (theta + 360) Rc Lc = Glfw.pistonDisplacement theta Rc Lc.
Proof.
  unfold Glfw.pistonDisplacement.
  rewrite radians_add_360. apply piston_position_add_2PI.
Qed.

Lemma getPistonHeight_add_360 (angleDeg : R) :
  Glut3D.getPistonHeight (angleDeg + 360) = Glut3D.getPistonHeight angleDeg.
Proof.
  unfold Glut3D.getPistonHeight.
  rewrite degrees_add_360, rod_crank_height_add_2PI. reflexivity.
Qed.

Lemma sin_sq_le_1 (x : R) : 0 <= sin x * sin x <= 1.
Proof. pose proof (SIN_bound x). split; nra. Qed.

Lemma sin_cos_sq (x : R) : sin x * sin x + cos x * cos x = 1.
Proof. pose proof (sin2_cos2 x) as H. unfold Rsqr in H. exact H. Qed.

Lemma glfw_radicand_pos (Rc Lc x : R) :
  0 < Rc < Lc -> 0 < Glfw.radicand Rc Lc x.
Proof.
  intros [HR HL]. unfold Glfw.radicand.
  pose proof (sin_sq_le_1 x) as Hs.
  assert (Hq : 0 < Rc / Lc < 1).
  { split.
    - apply Rdiv_lt_0_compat; lra.
    - apply (Rmult_lt_reg_r Lc); [lra |].
      replace (Rc / Lc * Lc) with Rc by (field; lra). lra. }
  set (q := Rc / Lc) in *. set (s := sin x) in *.
  replace (q ^ 2 * s ^ 2) with (q * q * (s * s)) by ring.
  assert (Hqq : 0 <= q * q < 1) by nra.
  assert (Hp : q * q * (s * s) <= q * q) by nra.
  lra.
Qed.

Lemma glut_radicand_pos (Rc Lc x : R) :
  0 < Rc < Lc -> 0 < Glut3D.radicand Rc Lc x.
Proof.
  intros [HR HL]. unfold Glut3D.radicand.
  pose proof (sin_sq_le_1 x) as Hs.
  assert (H1 : Rc * Rc < Lc * Lc) by nra.
  assert (H2 : Rc * Rc * sin x * sin x <= Rc * Rc) by nra.
  lra.
Qed.

(** The raw height stays between the two dead centres. *)
Lemma rod_crank_height_bounds (Rc Lc x : R) :
  0 < Rc < Lc ->
  Lc - Rc <= Glut3D.rod_crank_height Rc Lc x <= Lc + Rc.
Proof.
  intros HRL. pose proof (glut_radicand_pos Rc Lc x HRL) as Hu.
  unfold Glut3D.rod_crank_height.
  pose proof (sqrt_pos (Glut3D.radicand Rc Lc x)) as Hq0.
  pose proof (sqrt_sqrt (Glut3D.radicand Rc Lc x) (Rlt_le _ _ Hu)) as Hqq.
  set (q := sqrt (Glut3D.radicand Rc Lc x)) in *.
  unfold Glut3D.radicand in Hqq, Hu.
  pose proof (COS_bound x) as Hc. pose proof (sin_cos_sq x) as Hsc.
  pose proof (sin_sq_le_1 x) as Hs.
  set (s := sin x) in *. set (c := cos x) in *.
  destruct HRL as [HR HL].
  split.
  - destruct (Rle_dec (Lc - Rc - Rc * c) 0) as [Hv | Hv]; [lra |].
    apply Rnot_le_lt in Hv.
    assert (Hsq : (Lc - Rc - Rc * c) * (Lc - Rc - Rc * c) <= q * q).
    { rewrite Hqq.
      assert (Hk : 0 <= 2 * Rc * (1 + c) * (Lc - Rc)).
      { apply Rmult_le_pos; [apply Rmult_le_pos |]; lra. }
      replace (Rc * Rc * s * s) with (Rc * Rc * (1 - c * c)) by (rewrite <- Hsc; ring).
      nra. }
    assert (Hvq : Lc - Rc - Rc * c <= q) by nra.
    lra.
  - assert (HqL : q <= Lc).
    { assert (Hle : q * q <= Lc * Lc).
      { rewrite Hqq. assert (0 <= Rc * Rc * s * s) by nra. lra. }
      nra. }
    assert (Rc * c <= Rc) by nra. lra.
Qed.

End Kinematics.

(** C5. For a geometry with [0 < Rc < Lc] and every crank angle [theta] in
    degrees, the piston displacement at [theta] and at [theta + 360] is the
    same; in particular it is the same at 0, 360 and 720.  This holds for
    [get_piston_position] of engine_sim.cpp, at its own geometry too, and
    for [getPistonHeight] of part_002. *)
Theorem piston_displacement_period_360 (theta Rc Lc : R) :
  0 < Rc < Lc ->
  Glfw.pistonDisplacement theta Rc Lc = Glfw.pistonDisplacement (theta + 360) Rc Lc
  /\ Glfw.pistonDisplacement 0 Rc Lc = Glfw.pistonDisplacement 360 Rc Lc
  /\ Glfw.pistonDisplacement 360 Rc Lc = Glfw.pistonDisplacement 720 Rc Lc
  /\ Glfw.get_piston_position (radians theta)
     = Glfw.get_piston_position (radians (theta + 360))
  /\ Glut3D.rod_crank_height Rc Lc (theta * PI / 180)
     = Glut3D.rod_crank_height Rc Lc ((theta + 360) * PI / 180)
  /\ Glut3D.getPistonHeight theta = Glut3D.getPistonHeight (theta + 360)
  /\ Glut3D.getPistonHeight 0 = Glut3D.getPistonHeight 360
  /\ Glut3D.getPistonHeight 360 = Glut3D.getPistonHeight 720.
Proof.
  intros _.
  split; [symmetry; apply pistonDisplacement_add_360 |].
  split.
  { replace 360 with (0 + 360) by ring. symmetry. apply pistonDisplacement_add_360. }
  split.
  { replace 720 with (360 + 360) by ring. symmetry. apply pistonDisplacement_add_360. }
  split.
  { symmetry. apply (pistonDisplacement_add_360 theta). }
  split.
  { rewrite degrees_add_360. symmetry. apply rod_crank_height_add_2PI. }
  split; [symmetry; apply getPistonHeight_add_360 |].
  split.
  - replace 360 with (0 + 360) by ring. symmetry. apply getPistonHeight_add_360.
  - replace 720 with (360 + 360) by ring. symmetry. apply getPistonHeight_add_360.
Qed.

Lemma piston_displacement_period_360_witness :
  0 < Glfw.CRANK_RADIUS < Glfw.CONROD_LENGTH
  /\ Glfw.pistonDisplacement 90 Glfw.CRANK_RADIUS Glfw.CONROD_LENGTH
     = Glfw.pistonDisplacement (90 + 360) Glfw.CRANK_RADIUS Glfw.CONROD_LENGTH.
Proof.
  assert (H : 0 < Glfw.CRANK_RADIUS < Glfw.CONROD_LENGTH).
  { unfold Glfw.CRANK_RADIUS, Glfw.CONROD_LENGTH. lra. }
  split; [exact H |].
  exact (proj1 (piston_displacement_period_360 90 _ _ H)).
Defined.

(** C7. For a geometry with [0 < Rc < Lc] and every crank angle, the
    argument handed to the square root is not negative, in the formula of
    engine_sim.cpp and in that of part_002, so the root is a root of it:
    its square gives the argument back. *)
Theorem radicand_never_negative (theta Rc Lc : R) :
  0 < Rc < Lc ->
  0 <= Glfw.radicand Rc Lc (radians theta)
  /\ sqrt (Glfw.radicand Rc Lc (radians theta))
     * sqrt (Glfw.radicand Rc Lc (radians theta))
     = Glfw.radicand Rc Lc (radians theta)
  /\ 0 <= Glut3D.radicand Rc Lc (theta * PI / 180)
  /\ sqrt (Glut3D.radicand Rc Lc (theta * PI / 180))
     * sqrt (Glut3D.radicand Rc Lc (theta * PI / 180))
     = Glut3D.radicand Rc Lc (theta * PI / 180).
Proof.
  intros H.
  pose proof (glfw_radicand_pos Rc Lc (radians theta) H) as H1.
  pose proof (glut_radicand_pos Rc Lc (theta * PI / 180) H) as H2.
  repeat split; try lra; apply sqrt_sqrt; lra.
Qed.

Lemma radicand_never_negative_witness :
  0 < Glfw.CRANK_RADIUS < Glfw.CONROD_LENGTH
  /\ 0 <= Glfw.radicand Glfw.CRANK_RADIUS Glfw.CONROD_LENGTH (radians 90).
Proof.
  assert (H : 0 < Glfw.CRANK_RADIUS < Glfw.CONROD_LENGTH).
  { unfold Glfw.CRANK_RADIUS, Glfw.CONROD_LENGTH. lra. }
  split; [exact H |].
  exact (proj1 (radicand_never_negative 90 _ _ H)).
Defined.

(** C9. For every angle, with [Rc = 0.75] and [Lc = 2.4] the raw height
    [y] lies between [Lc - Rc] and [Lc + Rc], the normalised [t] lies in
    [[0, 1]], and [getPistonHeight], which is [1.5 + t * 3.2], lies in
    [[1.5, 4.7]]. *)
Theorem getPistonHeight_in_travel_range (angleDeg : R) :
  let y := Glut3D.rod_crank_height 0.75 2.4 (angleDeg * PI / 180) in
  let t := (y - (2.4 - 0.75)) / ((2.4 + 0.75) - (2.4 - 0.75)) in
  2.4 - 0.75 <= y <= 2.4 + 0.75
  /\ 0 <= t <= 1
  /\ Glut3D.getPistonHeight angleDeg = 1.5 + t * 3.2
  /\ 1.5 <= Glut3D.getPistonHeight angleDeg <= 4.7.
Proof.
  intros y t.
  assert (Hy : 2.4 - 0.75 <= y <= 2.4 + 0.75).
  { apply rod_crank_height_bounds. lra. }
  assert (Ht : t = (y - 1.65) / 1.5) by (unfold t, Rdiv; f_equal; [lra | f_equal; lra]).
  assert (Ht01 : 0 <= t <= 1) by (rewrite Ht; lra).
  assert (Hg : Glut3D.getPistonHeight angleDeg = 1.5 + t * 3.2) by reflexivity.
  split; [exact Hy |]. split; [exact Ht01 |]. split; [exact Hg |].
  rewrite Hg. lra.
Qed.

(** ** Valves *)

(** C10. For every angle that is not negative, both lifts are 0 or 1, the
    intake lift is 1 exactly when [fmod angleDeg 720 < 180], the exhaust
    lift is 1 exactly when [fmod angleDeg 720 >= 540], and the two are
    never 1 together. *)
Theorem getValveStates_zero_one_exclusive (angleDeg : R) :
  0 <= angleDeg ->
  let intakeLift := fst (Glut3D.getValveStates angleDeg) in
  let exhaustLift := snd (Glut3D.getValveStates angleDeg) in
  (intakeLift = 0 \/ intakeLift = 1)
  /\ (exhaustLift = 0 \/ exhaustLift = 1)
  /\ (intakeLift = 1 <-> fmod angleDeg 720 < 180)
  /\ (exhaustLift = 1 <-> fmod angleDeg 720 >= 540)
  /\ ~ (intakeLift = 1 /\ exhaustLift = 1).
Proof.
  intros Ha. unfold Glut3D.getValveStates. simpl fst. simpl snd.
  set (a := fmod angleDeg 720).
  split_cmp; repeat split; intros; try lra; auto; intuition lra.
Qed.

Lemma getValveStates_zero_one_exclusive_witness :
  0 <= 100
  /\ (fst (Glut3D.getValveStates 100) = 1 <-> fmod 100 720 < 180).
Proof.
  assert (H : 0 <= 100) by lra.
  split; [exact H |].
  exact (proj1 (proj2 (proj2 (getValveStates_zero_one_exclusive 100 H)))).
Defined.

(** * Further properties of the code *)

Lemma Rleb_spec (x y : R) : Rleb x y = true <-> x <= y.
Proof. unfold Rleb. destruct (Rle_dec x y); split; intros; lra || congruence. Qed.

(** [split_cmp] with the non-strict comparison as well. *)
Ltac cmp_cases :=
  unfold Rltb, Rgtb, Rgeb, Rleb in *;
  repeat match goal with
  | |- context [Rlt_dec ?a ?b] => destruct (Rlt_dec a b)
  | |- context [Rgt_dec ?a ?b] => destruct (Rgt_dec a b)
  | |- context [Rge_dec ?a ?b] => destruct (Rge_dec a b)
  | |- context [Rle_dec ?a ?b] => destruct (Rle_dec a b)
  end; simpl.

(** ** part_000: the phases of the four cylinders *)

Section CylinderPhases.

Import Glut2D.



Lemma getPhaseKindForCylinder_bounds (angleDeg phaseOffsetDeg : R) :
  (0 <= getPhaseKindForCylinder angleDeg phaseOffsetDeg <= 3)%Z.
Proof. unfold getPhaseKindForCylinder. split_cmp; lia. Qed.


End CylinderPhases.




(** ** part_000: the piston drawn by [display] *)

Lemma pistonPositionForCrank_closed (baseTopY angleDeg phaseOffsetDeg : R) :
  Glut2D.pistonPositionForCrank baseTopY angleDeg phaseOffsetDeg
  = baseTopY - 46 * (1 - cos ((angleDeg + phaseOffsetDeg) * PI / 180)).
Proof.
  unfold Glut2D.pistonPositionForCrank, Glut2D.crankRadius, Glut2D.stroke.
  set (c := cos _). lra.
Qed.

(** X3. The piston centre computed by [pistonPositionForCrank] never rises
    above [baseTopY] and never sinks more than 92 below it; it is at the
    top when angle plus offset is 0 and at the bottom when it is 180, and
    it comes back after 360 degrees. *)
Theorem pistonPositionForCrank_travel (baseTopY angleDeg phaseOffsetDeg : R) :
  baseTopY - 92
    <= Glut2D.pistonPositionForCrank baseTopY angleDeg phaseOffsetDeg
    <= baseTopY
  /\ Glut2D.pistonPositionForCrank baseTopY (angleDeg + 360) phaseOffsetDeg
     = Glut2D.pistonPositionForCrank baseTopY angleDeg phaseOffsetDeg
  /\ Glut2D.pistonPositionForCrank baseTopY 0 0 = baseTopY
  /\ Glut2D.pistonPositionForCrank baseTopY 180 0 = baseTopY - 92.
Proof.
  rewrite !pistonPositionForCrank_closed.
  pose proof (COS_bound ((angleDeg + phaseOffsetDeg) * PI / 180)) as Hc.
  split; [lra |]. split; [| split].
  - replace ((angleDeg + 360 + phaseOffsetDeg) * PI / 180)
      with ((angleDeg + phaseOffsetDeg) * PI / 180 + 2 * PI) by field.
    now rewrite cos_add_2PI.
  - replace ((0 + 0) * PI / 180) with 0 by field. rewrite cos_0. lra.
  - replace ((180 + 0) * PI / 180) with PI by field. rewrite cos_PI. lra.
Qed.

(** ** part_000: keyboard, mouse and timer *)

Section Glut2DEvents.

Import Glut2DApp.

Lemma timer_advance_at_range (speed crank : R) (dt : Z) :
  0 <= speed -> (0 <= dt)%Z -> 0 <= crank <= 720 ->
  0 <= timer_advance_at speed crank dt <= 720.
Proof.
  intros Hs Hdt Hc. unfold timer_advance_at.
  assert (Hd : 0 <= IZR dt) by now apply IZR_le.
  assert (Hi : 0 <= speed * (IZR dt / 1000)).
  { apply Rmult_le_pos; [assumption | lra]. }
  split_cmp.
  - pose proof (fmod_nonneg_range (crank + speed * (IZR dt / 1000)) 720
                  ltac:(lra) ltac:(lra)). lra.
  - lra.
Qed.

Lemma keyboard_inv (key : ascii) (t now : Z) (s s' : App) :
  app_inv t s -> (t <= now)%Z -> keyboard key now s = Some s' ->
  app_inv now s'.
Proof.
  intros (Hc & Hs & Ht) Hnow. unfold keyboard, app_inv.
  destruct (appState s).
  - destruct ((key =? "013")%char || (key =? "010")%char).
    + intros [= <-]. simpl. repeat split; lra || lia.
    + destruct (key =? "027")%char; [discriminate |].
      intros [= <-]. repeat split; lra || lia.
  - destruct (key =? "027")%char; [discriminate |].
    destruct (key =? " ")%char.
    { split_cmp; intros [= <-]; simpl; repeat split; lra || lia. }
    destruct (key =? "f")%char.
    { intros [= <-]; simpl; repeat split; lra || lia. }
    destruct (key =? "s")%char.
    { intros [= <-]; simpl. repeat split; try lra; try lia. apply Rmax_l. }
    destruct ((key =? "m")%char || (key =? "M")%char);
      intros [= <-]; simpl; repeat split; lra || lia.
Qed.

Lemma timer_inv (t now : Z) (s : App) :
  app_inv t s -> (t <= now)%Z -> app_inv now (timer now s).
Proof.
  intros (Hc & Hs & Ht) Hnow. unfold timer, app_inv.
  destruct (appState s); simpl.
  - repeat split; lra || lia.
  - repeat split; try lra; try lia;
      apply timer_advance_at_range; try assumption;
      destruct (lastTime s =? 0)%Z; lia.
Qed.

Lemma dispatch_inv (t now : Z) (e : Event) (s s' : App) :
  app_inv t s -> (t <= now)%Z -> dispatch now e s = Some s' ->
  app_inv now s'.
Proof.
  intros Hinv Hnow. destruct e; simpl.
  - now apply keyboard_inv with (t := t).
  - intros [= <-]. destruct Hinv as (Hc & Hs & Ht).
    unfold passiveMouse, app_inv.
    destruct (negb _); simpl; repeat split; lra || lia.
  - intros [= <-]. destruct Hinv as (Hc & Hs & Ht).
    unfold mouseClick, app_inv.
    destruct (appState s); [| repeat split; lra || lia].
    destruct (_ && _); [| repeat split; lra || lia].
    destruct (on_button s x y); simpl; repeat split; lra || lia.
  - intros [= <-]. now apply timer_inv with (t := t).
  - intros [= <-]. destruct Hinv as (Hc & Hs & Ht).
    unfold display, app_inv. destruct (appState s); simpl;
      repeat split; lra || lia.
  - intros [= <-]. destruct Hinv as (Hc & Hs & Ht).
    unfold reshape, app_inv. simpl. repeat split; lra || lia.
Qed.

Lemma mainLoop_inv (trace : list (Z * Event)) :
  forall (t : Z) (s s' : App),
    app_inv t s -> clock_from t trace -> mainLoop s trace = Some s' ->
    exists t', app_inv t' s'.
Proof.
  induction trace as [| [now e] trace IH]; intros t s s' Hinv Hclk Hrun.
  - injection Hrun as <-. now exists t.
  - destruct Hclk as [Hnow Hclk]. simpl in Hrun.
    destruct (dispatch now e s) as [s1 |] eqn:Hd; [| discriminate].
    apply (IH now s1 s'); try assumption.
    now apply dispatch_inv with (t := t) (e := e) (s := s).
Qed.

End Glut2DEvents.

(** X4. Whatever keys, mouse events, redraws, resizes and timer ticks
    arrive, as long as the clock does not run backwards, the program of
    part_000 keeps its speed at or above 0 and its crank angle in
    [[0, 720]] (720 included). *)
Theorem glut2d_speed_and_angle_invariant
    (t0 : Z) (trace : list (Z * Glut2DApp.Event)) (s : Glut2DApp.App) :
  Glut2DApp.clock_from t0 trace ->
  Glut2DApp.mainLoop (Glut2DApp.initial t0) trace = Some s ->
  0 <= Glut2DApp.crankSpeedDegPerSec s
  /\ 0 <= Glut2DApp.crankAngle s <= 720.
Proof.
  intros Hclk Hrun.
  assert (H0 : Glut2DApp.app_inv t0 (Glut2DApp.initial t0)).
  { unfold Glut2DApp.app_inv. simpl. repeat split; lra || lia. }
  destruct (mainLoop_inv trace t0 _ s H0 Hclk Hrun) as [t' (Hc & Hs & _)].
  split; assumption.
Qed.

Lemma glut2d_speed_and_angle_invariant_witness :
  let trace :=
    ((5, Glut2DApp.EvDisplay)
     :: (10, Glut2DApp.EvKeyboard "013")
     :: (20, Glut2DApp.EvKeyboard "f")
     :: (26, Glut2DApp.EvTimer) :: nil)%Z%list in
  let s :=
    Glut2DApp.mkApp 360 (Glut2DApp.timer_advance_at (90 + 30) 0 16) (90 + 30)
                    26 Glut2D.ANIMATION 160 (IZR 360 / 2 - 20) false in
  0 <= Glut2DApp.crankSpeedDegPerSec s /\ 0 <= Glut2DApp.crankAngle s <= 720.
Proof.
  intros trace s.
  apply (glut2d_speed_and_angle_invariant 0 trace s).
  - simpl. lia.
  - reflexivity.
Defined.

Section Glut2DKeys.

Import Glut2DApp.

Lemma timer_advance_at_rest (crank : R) (dt : Z) :
  crank <= 720 -> timer_advance_at 0 crank dt = crank.
Proof.
  intros Hc. unfold timer_advance_at. split_cmp; lra.
Qed.

Lemma timer_ticks_at_rest (ts : list Z) :
  forall s : App,
    appState s = Glut2D.ANIMATION -> crankSpeedDegPerSec s = 0 ->
    crankAngle s <= 720 ->
    exists s',
      mainLoop s (List.map (fun t => (t, EvTimer)) ts) = Some s'
      /\ crankAngle s' = crankAngle s
      /\ crankSpeedDegPerSec s' = 0
      /\ appState s' = Glut2D.ANIMATION.
Proof.
  induction ts as [| t ts IH]; intros s Ha Hs Hc.
  - exists s. simpl. auto.
  - simpl. unfold timer at 1. rewrite Ha.
    set (s1 := mkApp _ _ _ _ _ _ _ _).
    assert (H1 : crankAngle s1 = crankAngle s).
    { unfold s1. simpl. rewrite Hs. now apply timer_advance_at_rest. }
    destruct (IH s1) as (s' & Hrun & Hc' & Hs' & Ha').
    + reflexivity.
    + unfold s1. simpl. exact Hs.
    + rewrite H1. exact Hc.
    + exists s'. rewrite Hrun. repeat split; try assumption. congruence.
Qed.

End Glut2DKeys.

(** X5. While the animation runs at a speed of at least 0, the key [f]
    followed by the key [s] leaves the program exactly as it was; the key
    [s] alone never takes the speed below 0: from 30 or less it gives 0. *)
Theorem speed_up_then_down_restores (now1 now2 : Z) (s : Glut2DApp.App) :
  Glut2DApp.appState s = Glut2D.ANIMATION ->
  0 <= Glut2DApp.crankSpeedDegPerSec s ->
  (exists s1, Glut2DApp.keyboard "f" now1 s = Some s1
              /\ Glut2DApp.keyboard "s" now2 s1 = Some s)
  /\ (Glut2DApp.crankSpeedDegPerSec s <= 30 ->
      exists s2, Glut2DApp.keyboard "s" now1 s = Some s2
                 /\ Glut2DApp.crankSpeedDegPerSec s2 = 0).
Proof.
  intros Ha Hs. destruct s as [h c v l a bx by_ hv]. simpl in *. subst a.
  split.
  - eexists. split; [reflexivity |]. unfold Glut2DApp.keyboard. simpl.
    do 2 f_equal. unfold Rmax. destruct (Rle_dec 0 (v + 30 - 30)); lra.
  - intros Hv. eexists. split; [reflexivity |]. simpl.
    unfold Rmax. destruct (Rle_dec 0 (v - 30)); lra.
Qed.

Lemma speed_up_then_down_restores_witness :
  let s := Glut2DApp.mkApp 360 100 90 50 Glut2D.ANIMATION 160 160 false in
  exists s1, Glut2DApp.keyboard "f" 60 s = Some s1
             /\ Glut2DApp.keyboard "s" 70 s1 = Some s.
Proof.
  intros s.
  apply (speed_up_then_down_restores 60 70 s); [reflexivity | simpl; lra].
Defined.

(** X6. Pausing holds the engine: once the space bar has stopped a
    running animation (speed above 1) whose angle is at most 720, no
    number of timer ticks, at whatever clock readings, moves the crank
    angle. *)
Theorem space_pause_holds_the_angle
    (now : Z) (ts : list Z) (s : Glut2DApp.App) :
  Glut2DApp.appState s = Glut2D.ANIMATION ->
  1 < Glut2DApp.crankSpeedDegPerSec s ->
  Glut2DApp.crankAngle s <= 720 ->
  exists s1 s2,
    Glut2DApp.keyboard " " now s = Some s1
    /\ Glut2DApp.crankSpeedDegPerSec s1 = 0
    /\ Glut2DApp.mainLoop s1 (List.map (fun t => (t, Glut2DApp.EvTimer)) ts)
       = Some s2
    /\ Glut2DApp.crankAngle s2 = Glut2DApp.crankAngle s.
Proof.
  intros Ha Hs Hc. destruct s as [h c v l a bx by_ hv]. simpl in *. subst a.
  set (s1 := Glut2DApp.mkApp h c 0 l Glut2D.ANIMATION bx by_ hv).
  destruct (timer_ticks_at_rest ts s1) as (s2 & Hrun & Hc2 & _ & _);
    try reflexivity; [exact Hc |].
  exists s1, s2. repeat split; try assumption.
  unfold Glut2DApp.keyboard. simpl. split_cmp; reflexivity || lra.
Qed.

Lemma space_pause_holds_the_angle_witness :
  let s := Glut2DApp.mkApp 360 100 90 50 Glut2D.ANIMATION 160 160 false in
  exists s1 s2,
    Glut2DApp.keyboard " " 60 s = Some s1
    /\ Glut2DApp.crankSpeedDegPerSec s1 = 0
    /\ Glut2DApp.mainLoop s1
         (List.map (fun t => (t, Glut2DApp.EvTimer)) (76 :: 92 :: nil)%Z%list)
       = Some s2
    /\ Glut2DApp.crankAngle s2 = Glut2DApp.crankAngle s.
Proof.
  intros s.
  apply (space_pause_holds_the_angle 60 (76 :: 92 :: nil)%Z%list s);
    [reflexivity | simpl; lra | simpl; lra].
Defined.

(** X7. The hover highlight tells the truth: on the landing page, after
    the pointer has moved to [(x, y)], the button is highlighted exactly
    when a left click at that point starts the animation; the click then
    also stores the clock reading in [lastTime].  On the animation page no
    click changes anything. *)
Theorem hover_iff_click_starts (x y now : Z) (s : Glut2DApp.App) :
  let hovered := Glut2DApp.passiveMouse x y s in
  let clicked :=
    Glut2DApp.mouseClick Glut2DApp.GLUT_LEFT_BUTTON Glut2DApp.GLUT_DOWN
                         x y now hovered in
  (Glut2DApp.appState s = Glut2D.LANDING ->
   (Glut2DApp.hoverBtn hovered = true
    <-> Glut2DApp.appState clicked = Glut2D.ANIMATION)
   /\ (Glut2DApp.appState clicked = Glut2D.ANIMATION ->
       Glut2DApp.lastTime clicked = now))
  /\ (Glut2DApp.appState s = Glut2D.ANIMATION ->
      forall button state,
        Glut2DApp.mouseClick button state x y now s = s).
Proof.
  intros hovered clicked. split.
  - intros Ha. unfold clicked, hovered, Glut2DApp.mouseClick,
      Glut2DApp.passiveMouse.
    assert (Hsame : forall b,
      Glut2DApp.on_button
        (Glut2DApp.mkApp (Glut2DApp.winH s) (Glut2DApp.crankAngle s)
           (Glut2DApp.crankSpeedDegPerSec s) (Glut2DApp.lastTime s)
           (Glut2DApp.appState s) (Glut2DApp.btnX s) (Glut2DApp.btnY s) b) x y
      = Glut2DApp.on_button s x y) by reflexivity.
    destruct (Glut2DApp.on_button s x y) eqn:Hon;
      destruct (Glut2DApp.hoverBtn s) eqn:Hh; simpl;
      rewrite ?Hsame, ?Ha, ?Hon, ?Hh; simpl; rewrite ?Hon, ?Ha;
      (split; [split; intros; congruence || reflexivity
              | intros; congruence || reflexivity]).
  - intros Ha button state. unfold Glut2DApp.mouseClick. now rewrite Ha.
Qed.

Lemma hover_iff_click_starts_witness :
  let s := Glut2DApp.display (Glut2DApp.initial 0) in
  Glut2DApp.hoverBtn (Glut2DApp.passiveMouse 160 200 s) = true
  <-> Glut2DApp.appState
        (Glut2DApp.mouseClick Glut2DApp.GLUT_LEFT_BUTTON Glut2DApp.GLUT_DOWN
           160 200 7 (Glut2DApp.passiveMouse 160 200 s))
      = Glut2D.ANIMATION.
Proof.
  intros s.
  exact (proj1 (proj1 (hover_iff_click_starts 160 200 7 s) eq_refl)).
Defined.

(** ** engine_sim.cpp: the rod and crank of [draw_piston_assembly] *)

Section GlfwKinematics.

Import Glfw.

Lemma sin_add_PI (x : R) : sin (x + PI) = - sin x.
Proof. rewrite sin_plus, sin_PI, cos_PI. ring. Qed.

Lemma cos_add_PI (x : R) : cos (x + PI) = - cos x.
Proof. rewrite cos_plus, sin_PI, cos_PI. ring. Qed.

(** The root of engine_sim.cpp, scaled by the rod length, is the root of
    part_002. *)
Lemma scaled_root (Rc Lc x : R) :
  0 < Rc < Lc ->
  Lc * sqrt (radicand Rc Lc x) = sqrt (Glut3D.radicand Rc Lc x).
Proof.
  intros H. pose proof (glfw_radicand_pos Rc Lc x H) as Hu.
  rewrite <- (sqrt_square Lc) at 1 by lra.
  rewrite <- sqrt_mult_alt by nra.
  f_equal. unfold radicand, Glut3D.radicand. field. lra.
Qed.

Lemma piston_position_as_height (Rc Lc x : R) :
  0 < Rc < Lc ->
  piston_position Rc Lc x = Glut3D.rod_crank_height Rc Lc (x + PI).
Proof.
  intros H. unfold piston_position, Glut3D.rod_crank_height.
  rewrite (scaled_root Rc Lc x H), cos_add_PI.
  unfold Glut3D.radicand. rewrite sin_add_PI.
  replace (Lc * Lc - Rc * Rc * - sin x * - sin x)
    with (Lc * Lc - Rc * Rc * sin x * sin x) by ring.
  ring.
Qed.

Lemma geometry_ok : 0 < CRANK_RADIUS < CONROD_LENGTH.
Proof. unfold CRANK_RADIUS, CONROD_LENGTH. lra. Qed.

Lemma piston_to_pin_sq (x : R) :
  (get_piston_position x - crank_y x) * (get_piston_position x - crank_y x)
  = CONROD_LENGTH * CONROD_LENGTH - crank_x x * crank_x x.
Proof.
  unfold get_piston_position, piston_position, crank_y, crank_x.
  rewrite (scaled_root _ _ x geometry_ok).
  pose proof (glut_radicand_pos _ _ x geometry_ok) as Hu.
  replace (- CRANK_RADIUS * cos x
           + sqrt (Glut3D.radicand CRANK_RADIUS CONROD_LENGTH x)
           - - CRANK_RADIUS * cos x)
    with (sqrt (Glut3D.radicand CRANK_RADIUS CONROD_LENGTH x)) by ring.
  rewrite sqrt_sqrt by lra. unfold Glut3D.radicand. ring.
Qed.

End GlfwKinematics.

(** X8. The two piston formulas are one rod-crank model seen half a
    revolution apart: for a geometry with [0 < Rc < Lc], the position of
    engine_sim.cpp at a crank angle is the raw height of part_002 at that
    angle plus pi. *)
Theorem piston_position_is_height_half_turn_on (Rc Lc angle_rad : R) :
  0 < Rc < Lc ->
  Glfw.piston_position Rc Lc angle_rad
  = Glut3D.rod_crank_height Rc Lc (angle_rad + PI).
Proof. apply piston_position_as_height. Qed.

Lemma piston_position_is_height_half_turn_on_witness :
  Glfw.piston_position Glfw.CRANK_RADIUS Glfw.CONROD_LENGTH 1
  = Glut3D.rod_crank_height Glfw.CRANK_RADIUS Glfw.CONROD_LENGTH (1 + PI).
Proof.
  apply (piston_position_is_height_half_turn_on _ _ 1).
  unfold Glfw.CRANK_RADIUS, Glfw.CONROD_LENGTH. lra.
Defined.

(** X9. At every crank angle [get_piston_position] lies between 1.5 and
    2.5, that is between rod length minus and plus crank radius; it is 1.5
    at angle 0 and 2.5 at angle pi, so the piston travels exactly [STROKE],
    twice the crank radius. *)
Theorem get_piston_position_travel_is_stroke (angle_rad : R) :
  1.5 <= Glfw.get_piston_position angle_rad <= 2.5
  /\ Glfw.get_piston_position 0 = 1.5
  /\ Glfw.get_piston_position PI = 2.5
  /\ Glfw.get_piston_position PI - Glfw.get_piston_position 0 = Glfw.STROKE
  /\ Glfw.STROKE = 2 * Glfw.CRANK_RADIUS.
Proof.
  assert (Hb : forall x, 1.5 <= Glfw.get_piston_position x <= 2.5).
  { intros x. unfold Glfw.get_piston_position.
    rewrite (piston_position_as_height _ _ x geometry_ok).
    pose proof (rod_crank_height_bounds _ _ (x + PI) geometry_ok) as H.
    unfold Glfw.CRANK_RADIUS, Glfw.CONROD_LENGTH in *. lra. }
  assert (H0 : Glfw.get_piston_position 0 = 1.5).
  { unfold Glfw.get_piston_position, Glfw.piston_position, Glfw.radicand.
    rewrite sin_0, cos_0.
    replace (1 - (Glfw.CRANK_RADIUS / Glfw.CONROD_LENGTH) ^ 2 * 0 ^ 2)
      with 1 by ring.
    rewrite sqrt_1. unfold Glfw.CRANK_RADIUS, Glfw.CONROD_LENGTH. lra. }
  assert (H1 : Glfw.get_piston_position PI = 2.5).
  { unfold Glfw.get_piston_position, Glfw.piston_position, Glfw.radicand.
    rewrite sin_PI, cos_PI.
    replace (1 - (Glfw.CRANK_RADIUS / Glfw.CONROD_LENGTH) ^ 2 * 0 ^ 2)
      with 1 by ring.
    rewrite sqrt_1. unfold Glfw.CRANK_RADIUS, Glfw.CONROD_LENGTH. lra. }
  split; [apply Hb |]. split; [exact H0 |]. split; [exact H1 |].
  rewrite H0, H1. unfold Glfw.STROKE, Glfw.CRANK_RADIUS. split; lra.
Qed.

(** X10. The connecting rod is rigid in the computed kinematics: at every
    crank angle the piston centre [(0, piston_y)] lies exactly one rod
    length from the crank pin [(crank_x, crank_y)], and above it; the sine
    handed to [asin] is within [[-1, 1]], and the rod angle it returns
    satisfies [L * sin phi = - crank_x]. *)
Theorem connecting_rod_is_rigid (angle_rad : R) :
  let piston_y := Glfw.get_piston_position angle_rad in
  sqrt (Glfw.crank_x angle_rad * Glfw.crank_x angle_rad
        + (piston_y - Glfw.crank_y angle_rad)
          * (piston_y - Glfw.crank_y angle_rad))
  = Glfw.CONROD_LENGTH
  /\ Glfw.crank_y angle_rad < piston_y
  /\ -1 <= Glfw.sin_phi angle_rad <= 1
  /\ Glfw.CONROD_LENGTH * sin (Glfw.phi_rad angle_rad)
     = - Glfw.crank_x angle_rad.
Proof.
  intros piston_y. unfold piston_y.
  pose proof (piston_to_pin_sq angle_rad) as Hsq.
  pose proof (SIN_bound angle_rad) as Hs.
  assert (Hphi : -1 <= Glfw.sin_phi angle_rad <= 1).
  { unfold Glfw.sin_phi, Glfw.CRANK_RADIUS, Glfw.CONROD_LENGTH. lra. }
  split; [| split; [| split; [exact Hphi |]]].
  - rewrite Hsq.
    replace (Glfw.crank_x angle_rad * Glfw.crank_x angle_rad
             + (Glfw.CONROD_LENGTH * Glfw.CONROD_LENGTH
                - Glfw.crank_x angle_rad * Glfw.crank_x angle_rad))
      with (Glfw.CONROD_LENGTH * Glfw.CONROD_LENGTH) by ring.
    apply sqrt_square. unfold Glfw.CONROD_LENGTH. lra.
  - unfold Glfw.get_piston_position, Glfw.piston_position, Glfw.crank_y.
    pose proof (glfw_radicand_pos _ _ angle_rad geometry_ok) as Hu.
    pose proof (sqrt_lt_R0 _ Hu) as Hq.
    assert (0 < Glfw.CONROD_LENGTH
                * sqrt (Glfw.radicand Glfw.CRANK_RADIUS Glfw.CONROD_LENGTH
                          angle_rad)).
    { apply Rmult_lt_0_compat; [unfold Glfw.CONROD_LENGTH; lra | exact Hq]. }
    lra.
  - unfold Glfw.phi_rad. rewrite (sin_asin _ Hphi).
    unfold Glfw.sin_phi, Glfw.crank_x, Glfw.CRANK_RADIUS, Glfw.CONROD_LENGTH.
    lra.
Qed.

(** ** engine_sim.cpp: the render loop *)

Section GlfwLoop.

Import Glfw.

Lemma advance_nonneg (crank rpm dt : R) :
  0 <= crank -> 0 <= rpm -> 0 <= dt -> 0 <= advance crank rpm dt.
Proof.
  intros Hc Hr Hd. rewrite advance_unfold.
  assert (0 <= rpm * 6 * dt) by (apply Rmult_le_pos; lra).
  split_cmp; lra.
Qed.

Lemma phase_offset_nonneg (cylinder_index : Z) : 0 <= phase_offset cylinder_index.
Proof.
  unfold phase_offset.
  destruct (cylinder_index =? 3)%Z; [lra |].
  destruct (cylinder_index =? 2)%Z; [lra |].
  destruct (cylinder_index =? 1)%Z; lra.
Qed.

Lemma frame_keeps (p : Program) (f : FrameInput) :
  engine_speed_rpm (engine p) = 1000 ->
  0 <= crank_angle_degrees (engine p) ->
  last_frame_time p <= current_time f ->
  engine_speed_rpm (engine (frame p f)) = 1000
  /\ 0 <= crank_angle_degrees (engine (frame p f))
  /\ last_frame_time (frame p f) = current_time f.
Proof.
  intros Hr Hc Ht. destruct p as [[rpm crank running] t c]. simpl in *.
  subst rpm. unfold frame, processInput, update_simulation. simpl.
  destruct (key_r f), (key_space f), running; simpl;
    repeat split; try assumption; try lra;
    apply advance_nonneg; lra.
Qed.

Lemma main_loop_keeps (fs : list FrameInput) :
  forall p : Program,
    engine_speed_rpm (engine p) = 1000 ->
    0 <= crank_angle_degrees (engine p) ->
    clock_from (last_frame_time p) fs ->
    engine_speed_rpm (engine (main_loop p fs)) = 1000
    /\ 0 <= crank_angle_degrees (engine (main_loop p fs)).
Proof.
  induction fs as [| f fs IH]; intros p Hr Hc Hclk; simpl.
  - split; assumption.
  - destruct (window_should_close p); [split; assumption |].
    destruct Hclk as [Ht Hclk].
    destruct (frame_keeps p f Hr Hc Ht) as (Hr' & Hc' & Hl').
    apply IH; try assumption; now rewrite Hl'.
Qed.

Lemma last_nonempty_indep (A : Type) (a : A) (l : list A) (d d' : A) :
  List.last (a :: l) d = List.last (a :: l) d'.
Proof.
  revert a. induction l as [| b l IH]; intros a; [reflexivity |].
  cbn [List.last]. apply IH.
Qed.

(** A paused program only follows the clock. *)
Lemma paused_frames (fs : list FrameInput) :
  forall p : Program,
    is_running (engine p) = false ->
    window_should_close p = false ->
    List.Forall (fun f => key_escape f = false /\ key_space f = false
                          /\ key_r f = false) fs ->
    main_loop p fs
    = mkProgram (engine p)
                (List.last (List.map current_time fs) (last_frame_time p))
                false.
Proof.
  induction fs as [| f fs IH]; intros p Hrun Hopen Hkeys.
  - simpl. destruct p as [e t c]. simpl in *. now subst c.
  - inversion Hkeys as [| f' fs' (He & Hs & Hk) Hrest]; subst.
    cbn [main_loop]. rewrite Hopen.
    assert (Hf : frame p f = mkProgram (engine p) (current_time f) false).
    { unfold frame, processInput, update_simulation.
      rewrite He, Hs, Hk, Hopen. simpl. rewrite Hrun.
      destruct (engine p) as [r a b]. simpl in *. now subst b. }
    rewrite Hf, IH by (assumption || reflexivity). simpl List.map.
    f_equal. simpl engine. simpl last_frame_time.
    destruct fs as [| g gs]; [reflexivity |].
    simpl List.map. cbn [List.last].
    apply last_nonempty_indep.
Qed.

End GlfwLoop.

(** X11. In every state the render loop can reach from the initial one,
    with a clock that does not run backwards, the speed is still 1000 rpm
    and the crank angle is not negative; there [get_stroke_name], which
    does not wrap negative remainders, names for every cylinder index the
    same stroke as the wrapping classifier of part_000. *)
Theorem reachable_states_are_classified
    (fs : list Glfw.FrameInput) (cylinder_index : Z) :
  Glfw.clock_from 0 fs ->
  let e := Glfw.engine (Glfw.main_loop Glfw.initial_program fs) in
  Glfw.engine_speed_rpm e = 1000
  /\ 0 <= Glfw.crank_angle_degrees e
  /\ phase_of_name (Glfw.get_stroke_name (Glfw.crank_angle_degrees e)
                                         cylinder_index)
     = Some (phase_of_kind
               (Glut2D.getPhaseKindForCylinder
                  (Glfw.crank_angle_degrees e)
                  (Glfw.phase_offset cylinder_index))).
Proof.
  intros Hclk e.
  destruct (main_loop_keeps fs Glfw.initial_program) as [Hr Hc];
    [reflexivity | simpl; lra | exact Hclk |].
  fold e in Hr, Hc. split; [exact Hr |]. split; [exact Hc |].
  rewrite getPhaseKindForCylinder_range.
  apply get_stroke_name_nonneg.
  pose proof (phase_offset_nonneg cylinder_index). lra.
Qed.

Lemma reachable_states_are_classified_witness :
  let fs :=
    (Glfw.mkFrame 0.5 false true false
     :: Glfw.mkFrame 0.516 false false false
     :: Glfw.mkFrame 0.532 false false false :: nil)%list in
  0 <= Glfw.crank_angle_degrees
         (Glfw.engine (Glfw.main_loop Glfw.initial_program fs)).
Proof.
  intros fs.
  refine (proj1 (proj2 (reachable_states_are_classified fs 0 _))).
  simpl. lra.
Defined.

(** X12. A pass of the loop in which R is held ends with the crank angle
    at 0 and the engine paused, whatever the state before, the time
    elapsed, and whether SPACE is held too; the speed is untouched. *)
Theorem key_r_resets_and_pauses (p : Glfw.Program) (f : Glfw.FrameInput) :
  Glfw.key_r f = true ->
  Glfw.crank_angle_degrees (Glfw.engine (Glfw.frame p f)) = 0
  /\ Glfw.is_running (Glfw.engine (Glfw.frame p f)) = false
  /\ Glfw.engine_speed_rpm (Glfw.engine (Glfw.frame p f))
     = Glfw.engine_speed_rpm (Glfw.engine p).
Proof.
  intros Hr. unfold Glfw.frame, Glfw.processInput, Glfw.update_simulation.
  rewrite Hr. simpl. auto.
Qed.

Lemma key_r_resets_and_pauses_witness :
  Glfw.crank_angle_degrees
    (Glfw.engine
       (Glfw.frame (Glfw.mkProgram (Glfw.mkState 1000 300 true) 2 false)
                   (Glfw.mkFrame 2.5 false true true))) = 0.
Proof.
  exact (proj1 (key_r_resets_and_pauses
                  (Glfw.mkProgram (Glfw.mkState 1000 300 true) 2 false)
                  (Glfw.mkFrame 2.5 false true true) eq_refl)).
Defined.

(** X13. Time spent paused is not caught up.  While the engine is paused
    and no key is held, passes of the loop change nothing but the stored
    frame time; when SPACE then resumes, the angle advances by the time of
    that one pass only, measured from the last paused pass. *)
Theorem resume_does_not_catch_up
    (p : Glfw.Program) (fs : list Glfw.FrameInput) (f : Glfw.FrameInput) :
  Glfw.is_running (Glfw.engine p) = false ->
  Glfw.window_should_close p = false ->
  List.Forall (fun g => Glfw.key_escape g = false /\ Glfw.key_space g = false
                        /\ Glfw.key_r g = false) fs ->
  Glfw.key_space f = true ->
  Glfw.key_r f = false ->
  Glfw.engine (Glfw.main_loop p fs) = Glfw.engine p
  /\ Glfw.engine (Glfw.frame (Glfw.main_loop p fs) f)
     = Glfw.mkState
         (Glfw.engine_speed_rpm (Glfw.engine p))
         (Glfw.advance
            (Glfw.crank_angle_degrees (Glfw.engine p))
            (Glfw.engine_speed_rpm (Glfw.engine p))
            (Glfw.current_time f
             - List.last (List.map Glfw.current_time fs)
                         (Glfw.last_frame_time p)))
         true.
Proof.
  intros Hrun Hopen Hkeys Hs Hr.
  rewrite (paused_frames fs p Hrun Hopen Hkeys).
  split; [reflexivity |].
  unfold Glfw.frame, Glfw.processInput, Glfw.update_simulation.
  rewrite Hs, Hr. simpl. rewrite Hrun. reflexivity.
Qed.

Lemma resume_does_not_catch_up_witness :
  let p := Glfw.mkProgram (Glfw.mkState 1000 100 false) 1 false in
  let fs := (Glfw.mkFrame 5 false false false
             :: Glfw.mkFrame 60 false false false :: nil)%list in
  Glfw.engine (Glfw.main_loop p fs) = Glfw.engine p.
Proof.
  intros p fs.
  refine (proj1 (resume_does_not_catch_up p fs
                   (Glfw.mkFrame 60.016 false true false) _ _ _ _ _));
    try reflexivity.
  repeat constructor.
Defined.



(** ** part_002: controls and [idle] *)

Section Glut3DRun.

Import Glut3DApp.

Lemma keyboard_keeps (key : ascii) (s s' : Sim) :
  keyboard key s = Some s' ->
  crankAngle s' = crankAngle s
  /\ lastTimeMs s' = lastTimeMs s
  /\ smoke s' = smoke s
  /\ randCalls s' = randCalls s
  /\ (controls_ok s -> controls_ok s').
Proof.
  unfold keyboard, controls_ok.
  destruct (key =? "027")%char; [discriminate |].
  repeat match goal with
  | |- context [if ?b then _ else _] =>
      match b with
      | (_ =? _)%char => destruct b
      | (_ || _) => destruct b
      end
  end;
  intros [= <-]; simpl; repeat split; try reflexivity; intros;
    repeat match goal with H : _ /\ _ |- _ => destruct H end;
    split_cmp; lra.
Qed.

Lemma idle_fields (rnd : Rand) (now : Z) (s : Sim) :
  crankAngle (idle rnd now s)
  = Glut3D.idle_advance (crankAngle s) (rpm s)
      (IZR (now - (if (lastTimeMs s =? 0)%Z then now else lastTimeMs s)))
  /\ rpm (idle rnd now s) = rpm s
  /\ camZoom (idle rnd now s) = camZoom s
  /\ lastTimeMs (idle rnd now s) = now.
Proof.
  unfold idle. destruct (List.fold_left _ _ _) as [sm n]. simpl. auto.
Qed.

Lemma idle_advance_short_tick (crank rpm dtMs : R) :
  0 <= crank < 720 -> 0 <= rpm <= 3500 -> 0 <= dtMs <= 34 ->
  0 <= Glut3D.idle_advance crank rpm dtMs < 720.
Proof.
  intros Hc Hr Hd. unfold Glut3D.idle_advance.
  assert (Hi : 0 <= rpm * 360 / 60000 * dtMs <= 714).
  { assert (0 <= rpm * dtMs) by (apply Rmult_le_pos; lra).
    assert (rpm * dtMs <= 3500 * 34) by nra.
    lra. }
  split_cmp; lra.
Qed.

Lemma dispatch_run_inv (rnd : Rand) (t now : Z) (e : Event) (s s' : Sim) :
  run_inv t s ->
  idle_gaps 34 t ((now, e) :: nil) ->
  dispatch rnd now e s = Some s' ->
  run_inv (match e with EvIdle => now | EvKeyboard _ => t end) s'.
Proof.
  intros (Hok & Hc & Hl) Hgap. destruct e as [key |]; simpl.
  - intros Hk.
    destruct (keyboard_keeps key s s' Hk) as (Hc' & Hl' & _ & _ & Hok').
    unfold run_inv. rewrite Hc', Hl'. auto.
  - intros [= <-]. simpl in Hgap. destruct Hgap as [Hnow _].
    destruct (idle_fields rnd now s) as (Hc' & Hr & Hz & Hl').
    unfold run_inv, controls_ok. rewrite Hc', Hl', Hr, Hz.
    destruct Hok as [Hrpm Hzoom].
    split; [split; assumption |]. split; [| now right].
    apply idle_advance_short_tick; try assumption; try lra.
    destruct Hl as [-> | ->].
    + simpl. rewrite Z.sub_diag. simpl. lra.
    + destruct (t =? 0)%Z.
      * rewrite Z.sub_diag. simpl. lra.
      * split; [apply IZR_le; lia |].
        apply (Rle_trans _ (IZR 34)); [apply IZR_le; lia | simpl; lra].
Qed.

Lemma mainLoop_run_inv (rnd : Rand) (trace : list (Z * Event)) :
  forall (t : Z) (s s' : Sim),
    run_inv t s -> idle_gaps 34 t trace ->
    mainLoop rnd s trace = Some s' ->
    exists t', run_inv t' s'.
Proof.
  induction trace as [| [now e] trace IH]; intros t s s' Hinv Hgap Hrun.
  - injection Hrun as <-. now exists t.
  - simpl in Hrun.
    destruct (dispatch rnd now e s) as [s1 |] eqn:Hd; [| discriminate].
    assert (H1 : run_inv (match e with EvIdle => now | EvKeyboard _ => t end) s1).
    { apply (dispatch_run_inv rnd t now e s s1 Hinv); [| exact Hd].
      destruct e; simpl in *; tauto. }
    apply (IH _ s1 s' H1); [| exact Hrun].
    destruct e; simpl in *; tauto.
Qed.

Lemma mainLoop_controls (rnd : Rand) (trace : list (Z * Event)) :
  forall s s' : Sim,
    controls_ok s -> mainLoop rnd s trace = Some s' -> controls_ok s'.
Proof.
  induction trace as [| [now e] trace IH]; intros s s' Hok Hrun.
  - now injection Hrun as <-.
  - simpl in Hrun.
    destruct (dispatch rnd now e s) as [s1 |] eqn:Hd; [| discriminate].
    apply (IH s1 s'); [| exact Hrun].
    destruct e as [key |]; simpl in Hd.
    + now apply (keyboard_keeps key s s1 Hd).
    + injection Hd as <-.
      destruct (idle_fields rnd now s) as (_ & Hr & Hz & _).
      unfold controls_ok in *. now rewrite Hr, Hz.
Qed.

End Glut3DRun.

(** X15. Whatever keys are pressed and however often [idle] runs, the
    engine speed of part_002 stays between 80 and 3500 rpm and the camera
    distance between 12 and 28. *)
Theorem controls_stay_clamped
    (rnd : Glut3DApp.Rand) (trace : list (Z * Glut3DApp.Event))
    (s : Glut3DApp.Sim) :
  Glut3DApp.mainLoop rnd Glut3DApp.initial trace = Some s ->
  80 <= Glut3DApp.rpm s <= 3500 /\ 12 <= Glut3DApp.camZoom s <= 28.
Proof.
  intros Hrun.
  apply (mainLoop_controls rnd trace Glut3DApp.initial s); [| exact Hrun].
  unfold Glut3DApp.controls_ok. simpl. lra.
Qed.

Lemma controls_stay_clamped_witness :
  let trace :=
    ((3, Glut3DApp.EvKeyboard "z") :: (4, Glut3DApp.EvKeyboard "-")
     :: nil)%Z%list in
  let s := Glut3DApp.mkSim 0 (if Rltb (250 - 40) 80 then 80 else 250 - 40)
             0 (-35) 20 (if Rgtb (20 + 0.5) 28 then 28 else 20 + 0.5)
             Glut3DApp.smoke0 0 in
  80 <= Glut3DApp.rpm s <= 3500 /\ 12 <= Glut3DApp.camZoom s <= 28.
Proof.
  intros trace s.
  apply (controls_stay_clamped (fun _ => 0) trace s). reflexivity.
Defined.

(** X16. From the start of part_002, as long as successive calls of
    [idle] read the clock at most 34 ms apart (and never backwards), the
    crank angle stays in [[0, 720)], whatever keys are pressed in between:
    at the 3500 rpm the keyboard allows, 34 ms is less than one cycle. *)
Theorem crank_angle_in_cycle_for_short_frames
    (rnd : Glut3DApp.Rand) (t0 : Z) (trace : list (Z * Glut3DApp.Event))
    (s : Glut3DApp.Sim) :
  Glut3DApp.idle_gaps 34 t0 trace ->
  Glut3DApp.mainLoop rnd Glut3DApp.initial trace = Some s ->
  0 <= Glut3DApp.crankAngle s < 720.
Proof.
  intros Hgap Hrun.
  assert (H0 : Glut3DApp.run_inv t0 Glut3DApp.initial).
  { unfold Glut3DApp.run_inv, Glut3DApp.controls_ok. simpl.
    repeat split; try lra. now left. }
  destruct (mainLoop_run_inv rnd trace t0 _ s H0 Hgap Hrun)
    as [t' (_ & Hc & _)].
  exact Hc.
Qed.

Lemma crank_angle_in_cycle_for_short_frames_witness :
  let rnd : Glut3DApp.Rand := fun _ => 0.5 in
  0 <= Glut3DApp.crankAngle
         (Glut3DApp.idle rnd 1016 (Glut3DApp.idle rnd 1000 Glut3DApp.initial))
    < 720.
Proof.
  intros rnd.
  apply (crank_angle_in_cycle_for_short_frames rnd 1000
           ((1000, Glut3DApp.EvIdle) :: (1016, Glut3DApp.EvIdle)
            :: nil)%Z%list).
  - cbn [Glut3DApp.idle_gaps]. lia.
  - reflexivity.
Defined.

(** X17. Inside the range, slower and faster undo each other: with the
    speed between 120 and 3460 rpm, the key [z] followed by [x], and [x]
    followed by [z], leave the program exactly as it was. *)
Theorem slower_then_faster_restores (s : Glut3DApp.Sim) :
  120 <= Glut3DApp.rpm s <= 3460 ->
  (exists s1, Glut3DApp.keyboard "z" s = Some s1
              /\ Glut3DApp.keyboard "x" s1 = Some s)
  /\ (exists s2, Glut3DApp.keyboard "x" s = Some s2
                 /\ Glut3DApp.keyboard "z" s2 = Some s).
Proof.
  intros Hr. destruct s as [c r l rx ry zm sm n]. simpl in Hr.
  split; eexists; (split; [reflexivity |]);
    unfold Glut3DApp.keyboard; simpl; do 2 f_equal; unfold Rltb, Rgtb.
  - destruct (Rlt_dec (r - 40) 80); [lra |].
    destruct (Rgt_dec (r - 40 + 40) 3500); lra.
  - destruct (Rgt_dec (r + 40) 3500); [lra |].
    destruct (Rlt_dec (r + 40 - 40) 80); lra.
Qed.

Lemma slower_then_faster_restores_witness :
  exists s1, Glut3DApp.keyboard "z" Glut3DApp.initial = Some s1
             /\ Glut3DApp.keyboard "x" s1 = Some Glut3DApp.initial.
Proof.
  refine (proj1 (slower_then_faster_restores Glut3DApp.initial _)).
  simpl. lra.
Defined.

(** ** part_002: valves, flame and smoke along the cycle *)

Section Windows.

Import Glut3D.


(** For an angle that is not negative, the windows of part_002 are the
    strokes of the wrapping classifier. *)
Lemma windows_by_kind (a : R) :
  0 <= a ->
  let k := Glut2D.getPhaseKindForCylinder a 0 in
  fst (getValveStates a) = (if (k =? 0)%Z then 1 else 0)
  /\ snd (getValveStates a) = (if (k =? 3)%Z then 1 else 0)
  /\ smoke_window a = (k =? 3)%Z
  /\ flame_visible a = (k =? 2)%Z.
Proof.
  intros Ha k. unfold k, Glut2D.getPhaseKindForCylinder.
  replace (a + 0) with a by ring. rewrite (wrap720_nonneg a Ha).
  unfold getValveStates, smoke_window, flame_visible.
  pose proof (fmod_nonneg_range a 720 Ha ltac:(lra)) as Hm.
  set (m := fmod a 720) in *.
  cmp_cases; repeat split; reflexivity || lra.
Qed.






End Windows.

(** X18. For an angle that is not negative, the cosmetics follow the
    valves: a cylinder is allowed to smoke exactly when its exhaust valve
    is lifted, and while its flame is drawn both valves are shut; the alpha
    of the flame is always between 0.1 and 0.6. *)
Theorem smoke_and_flame_follow_valves (localAngle : R) :
  0 <= localAngle ->
  (Glut3D.smoke_window localAngle = true
   <-> snd (Glut3D.getValveStates localAngle) = 1)
  /\ (Glut3D.flame_visible localAngle = true ->
      Glut3D.getValveStates localAngle = (0, 0))
  /\ 0.1 <= Glut3D.flicker localAngle <= 0.6.
Proof.
  intros Ha.
  destruct (windows_by_kind localAngle Ha) as (W1 & W2 & W3 & W4).
  pose proof (getPhaseKindForCylinder_bounds localAngle 0) as Hk.
  set (k := Glut2D.getPhaseKindForCylinder localAngle 0) in *.
  assert (Hc : k = 0%Z \/ k = 1%Z \/ k = 2%Z \/ k = 3%Z) by lia.
  split; [| split].
  - rewrite W2, W3.
    destruct Hc as [-> | [-> | [-> | ->]]]; simpl; split; intros;
      try reflexivity; try discriminate; lra.
  - rewrite W4. intros Hf.
    rewrite (surjective_pairing (Glut3D.getValveStates localAngle)), W1, W2.
    destruct Hc as [-> | [-> | [-> | ->]]]; simpl in *;
      reflexivity || discriminate.
  - unfold Glut3D.flicker.
    pose proof (SIN_bound ((fmod localAngle 720 - 360) / 180 * 6)). lra.
Qed.

Lemma smoke_and_flame_follow_valves_witness :
  Glut3D.smoke_window 600 = true <-> snd (Glut3D.getValveStates 600) = 1.
Proof.
  refine (proj1 (smoke_and_flame_follow_valves 600 _)). lra.
Defined.



(** ** part_002: the smoke particles *)

Section Smoke.

Import Glut3DApp.

Lemma spawnSmoke_full (rnd : Rand) (px py pz : R) (pool : list SmokeParticle)
    (n : nat) :
  List.forallb active pool = true ->
  spawnSmoke rnd px py pz pool n = (pool, n).
Proof.
  induction pool as [| p rest IH]; [reflexivity |]. simpl.
  destruct (active p); simpl; [| discriminate].
  intros Hrest. now rewrite (IH Hrest).
Qed.

Lemma spawnSmoke_free (rnd : Rand) (px py pz : R) (pool : list SmokeParticle)
    (n : nat) :
  List.forallb active pool = false ->
  in_flight (fst (spawnSmoke rnd px py pz pool n)) = S (in_flight pool)
  /\ snd (spawnSmoke rnd px py pz pool n) = (n + 3)%nat.
Proof.
  unfold in_flight.
  induction pool as [| p rest IH]; [discriminate |]. simpl.
  destruct (active p) eqn:Hp; simpl.
  - intros Hrest. destruct (IH Hrest) as [I1 I2].
    destruct (spawnSmoke rnd px py pz rest n) as [rest' n']. simpl in *.
    rewrite ?Hp. simpl. now rewrite I1, I2.
  - intros _. rewrite ?Hp. simpl. auto.
Qed.

Lemma spawnSmoke_length (rnd : Rand) (px py pz : R) (pool : list SmokeParticle)
    (n : nat) :
  List.length (fst (spawnSmoke rnd px py pz pool n)) = List.length pool.
Proof.
  induction pool as [| p rest IH]; [reflexivity |]. simpl.
  destruct (active p); simpl; [| reflexivity].
  destruct (spawnSmoke rnd px py pz rest n) as [rest' n']. simpl in *.
  now rewrite IH.
Qed.

Lemma spawnSmoke_keeps_active (rnd : Rand) (px py pz : R)
    (pool : list SmokeParticle) (n : nat) (d : SmokeParticle) :
  forall i : nat,
    active (List.nth i pool d) = true ->
    List.nth i (fst (spawnSmoke rnd px py pz pool n)) d = List.nth i pool d.
Proof.
  induction pool as [| p rest IH]; intros i Hi; [reflexivity |]. simpl.
  destruct (active p) eqn:Hp; simpl.
  - destruct (spawnSmoke rnd px py pz rest n) as [rest' n']. simpl in *.
    destruct i as [| i]; [reflexivity | now apply IH].
  - destruct i as [| i]; [simpl in Hi; congruence | reflexivity].
Qed.


Lemma updateParticle_inactive (dt : R) (p : SmokeParticle) :
  active p = false -> updateParticle dt p = p.
Proof. intros Hp. unfold updateParticle. now rewrite Hp. Qed.





(** A particle that is out stays out. *)
Lemma updates_inactive (dts : list R) (p : SmokeParticle) :
  active p = false ->
  active (List.fold_left (fun q dt => updateParticle dt q) dts p) = false.
Proof.
  revert p. induction dts as [| dt dts IH]; intros p Hp; [exact Hp |].
  simpl. rewrite (updateParticle_inactive dt p Hp). now apply IH.
Qed.

Lemma updates_fade (dts : list R) :
  forall p : SmokeParticle,
    List.Forall (fun dt => 0 <= dt) dts ->
    (active p = true -> 0 < life p) ->
    life p <= 0.35 * List.fold_right Rplus 0 dts ->
    active (List.fold_left (fun q dt => updateParticle dt q) dts p) = false.
Proof.
  induction dts as [| dt dts IH]; intros p Hdts Hpos Hlife.
  - simpl in *. destruct (active p); [| reflexivity].
    specialize (Hpos eq_refl). lra.
  - inversion Hdts as [| dt' dts' Hdt Hrest]; subst. simpl in *.
    destruct (active p) eqn:Hp;
      [| rewrite (updateParticle_inactive dt p Hp); now apply updates_inactive].
    apply IH; [assumption | |];
      unfold updateParticle; rewrite Hp; simpl; cmp_cases;
      try discriminate; intros; lra.
Qed.

(** Updates never touch the upward speed and, for steps that are not
    negative, never lower a particle that moves upwards. *)
Lemma updates_rise (dts : list R) :
  forall p : SmokeParticle,
    List.Forall (fun dt => 0 <= dt) dts ->
    0 <= vy p ->
    let q := List.fold_left (fun q dt => updateParticle dt q) dts p in
    vy q = vy p /\ y p <= y q.
Proof.
  induction dts as [| dt dts IH]; intros p Hdts Hvy; [simpl; split; lra |].
  inversion Hdts as [| dt' dts' Hdt Hrest]; subst. simpl.
  assert (H1 : vy (updateParticle dt p) = vy p
               /\ y p <= y (updateParticle dt p)).
  { unfold updateParticle. destruct (active p); simpl; [| split; lra].
    cmp_cases; split; try lra.
    assert (0 <= vy p * dt) by (apply Rmult_le_pos; lra). lra. }
  destruct H1 as [Hv Hy].
  destruct (IH (updateParticle dt p) Hrest) as [Iv Iy]; [now rewrite Hv |].
  split; [now rewrite Iv | lra].
Qed.

End Smoke.

(** X20. [spawnSmoke] never grows the pool and fills at most one slot.
    When every slot is in flight it changes nothing and draws no random
    number; otherwise exactly one more particle is in flight and three
    random numbers are drawn.  Particles already in flight are left as
    they are. *)
Theorem spawnSmoke_fills_one_free_slot
    (rnd : Glut3DApp.Rand) (px py pz : R)
    (pool : list Glut3DApp.SmokeParticle) (n : nat) :
  let pool' := fst (Glut3DApp.spawnSmoke rnd px py pz pool n) in
  let n' := snd (Glut3DApp.spawnSmoke rnd px py pz pool n) in
  List.length pool' = List.length pool
  /\ (if List.forallb Glut3DApp.active pool
      then pool' = pool /\ n' = n
      else Glut3DApp.in_flight pool' = S (Glut3DApp.in_flight pool)
           /\ n' = (n + 3)%nat)
  /\ (forall (i : nat) (d : Glut3DApp.SmokeParticle),
        Glut3DApp.active (List.nth i pool d) = true ->
        List.nth i pool' d = List.nth i pool d).
Proof.
  intros pool' n'. unfold pool', n'.
  split; [apply spawnSmoke_length |]. split.
  - destruct (List.forallb Glut3DApp.active pool) eqn:Hf.
    + rewrite (spawnSmoke_full _ _ _ _ _ _ Hf). auto.
    + now apply spawnSmoke_free.
  - intros i d. apply spawnSmoke_keeps_active.
Qed.

Lemma spawnSmoke_fills_one_free_slot_witness :
  let busy := Glut3DApp.mkSmoke true 1 2 3 0 0.5 0 0.4 in
  let free := Glut3DApp.mkSmoke false 0 0 0 0 0 0 0 in
  List.nth 0
    (fst (Glut3DApp.spawnSmoke (fun _ => 0.5) 3.7 5.9 (-0.5)
            (busy :: free :: nil)%list 0))
    free
  = busy.
Proof.
  intros busy free.
  apply (proj2 (proj2 (spawnSmoke_fills_one_free_slot (fun _ => 0.5)
                         3.7 5.9 (-0.5) (busy :: free :: nil)%list 0))
           0%nat free).
  reflexivity.
Defined.



(** X22. No puff outlives 1 / 0.35 seconds of updates: a particle whose
    life is in [(0, 1]], as a fresh one is, is out of flight after any
    sequence of steps, none negative, whose sum times 0.35 reaches 1. *)
Theorem smoke_particle_fades_out
    (dts : list R) (p : Glut3DApp.SmokeParticle) :
  List.Forall (fun dt => 0 <= dt) dts ->
  0 < Glut3DApp.life p <= 1 ->
  1 <= 0.35 * List.fold_right Rplus 0 dts ->
  Glut3DApp.active
    (List.fold_left (fun q dt => Glut3DApp.updateParticle dt q) dts p)
  = false.
Proof.
  intros Hdts Hlife Hsum. apply updates_fade; [assumption | | lra].
  intros _. lra.
Qed.

Lemma smoke_particle_fades_out_witness :
  Glut3DApp.active
    (List.fold_left (fun q dt => Glut3DApp.updateParticle dt q)
       (1 :: 1 :: 1 :: nil)%list
       (Glut3DApp.fresh_particle 3.7 5.9 (-0.5) 0.2 0.4 0.6))
  = false.
Proof.
  apply smoke_particle_fades_out.
  - repeat (apply List.Forall_cons; [lra |]). apply List.Forall_nil.
  - simpl. lra.
  - simpl. lra.
Defined.

(** X23. Smoke rises and drifts slowly.  For random draws in [[0, 1]] a
    fresh particle starts at full life with an upward speed between 0.5
    and 0.8 and a sideways speed of at most 0.05; updates by steps that
    are not negative never change its upward speed and never bring it
    below the height it was spawned at. *)
Theorem fresh_smoke_rises
    (px py pz u1 u2 u3 : R) (dts : list R) :
  0 <= u1 <= 1 -> 0 <= u2 <= 1 -> 0 <= u3 <= 1 ->
  List.Forall (fun dt => 0 <= dt) dts ->
  let p := Glut3DApp.fresh_particle px py pz u1 u2 u3 in
  let q := List.fold_left (fun q dt => Glut3DApp.updateParticle dt q) dts p in
  Glut3DApp.life p = 1
  /\ 0.5 <= Glut3DApp.vy p <= 0.8
  /\ Glut3DApp.vx p * Glut3DApp.vx p + Glut3DApp.vz p * Glut3DApp.vz p
     <= 0.05 * 0.05
  /\ Glut3DApp.vy q = Glut3DApp.vy p
  /\ py <= Glut3DApp.y q.
Proof.
  intros H1 H2 H3 Hdts p q.
  assert (Hvy : 0.5 <= Glut3DApp.vy p <= 0.8) by (unfold p; simpl; lra).
  split; [reflexivity |]. split; [exact Hvy |]. split.
  - unfold p. simpl.
    pose proof (sin_cos_sq (u1 * 2 * PI)) as Hsc.
    set (c := cos (u1 * 2 * PI)) in *. set (s := sin (u1 * 2 * PI)) in *.
    set (v := 0.3 + 0.2 * u2).
    assert (Hv : 0 <= v <= 0.5) by (unfold v; lra).
    assert (E : c * v * 0.1 * (c * v * 0.1) + s * v * 0.1 * (s * v * 0.1)
                = v * v * / 100 * (s * s + c * c)).
    { replace 0.1 with (/ 10) by lra. field. }
    rewrite E, Hsc.
    assert (Hvv : v * v <= 0.5 * 0.5) by nra.
    lra.
  - destruct (updates_rise dts p Hdts) as [Hv Hy]; [lra |].
    fold q in Hv, Hy. split; [exact Hv |]. unfold p in Hy. simpl in Hy. exact Hy.
Qed.

Lemma fresh_smoke_rises_witness :
  0.5 <= Glut3DApp.vy (Glut3DApp.fresh_particle 3.7 5.9 (-0.5) 0.2 0.4 0.6)
      <= 0.8.
Proof.
  refine (proj1 (proj2 (fresh_smoke_rises 3.7 5.9 (-0.5) 0.2 0.4 0.6
                          (0.016 :: nil)%list _ _ _ _))); try lra.
  apply List.Forall_cons; [lra | apply List.Forall_nil].
Defined.

(** ** part_002: smoke emitted by [idle] *)

Section IdleSmoke.

Import Glut3DApp.







End IdleSmoke.



(** ** part_001: the landing page *)

Section Landing.

Import Glut3DLanding.

Lemma same_engine_refl (a : Glut3DApp.Sim) : same_engine a a.
Proof. unfold same_engine. repeat split. Qed.


Lemma start_cases (now : Z) (p : Page) :
  appState (startEngineSimulation now p) = STATE_ENGINE
  /\ winHeight (startEngineSimulation now p) = winHeight p.
Proof.
  unfold startEngineSimulation. destruct (appState p) eqn:Hp; simpl; auto.
Qed.

(** What one callback can do to the page. *)
Lemma dispatch_page (rnd : Glut3DApp.Rand) (now : Z) (e : Event) (p p' : Page) :
  dispatch rnd now e p = Some p' ->
  match appState p with
  | STATE_ENGINE => appState p' = STATE_ENGINE
  | STATE_LANDING =>
      appState p' = STATE_ENGINE
      \/ (appState p' = STATE_LANDING /\ same_engine (sim p) (sim p'))
  end.
Proof.
  destruct e as [key | button state x y | | w h]; simpl.
  - unfold keyboard. destruct (appState p) eqn:Hp.
    + destruct (_ || _).
      * intros [= <-]. left. apply start_cases.
      * destruct (key =? "027")%char; [discriminate |].
        intros [= <-]. right. split; [(simpl; (reflexivity || exact Hp)) | apply same_engine_refl].
    + destruct (Glut3DApp.keyboard key (sim p)); [| discriminate].
      intros [= <-]. (simpl; (reflexivity || exact Hp)).
  - intros [= <-]. unfold mouse. destruct (appState p) eqn:Hp; [| (simpl; (reflexivity || exact Hp))].
    destruct (_ || _);
      [right; split; [(simpl; (reflexivity || exact Hp)) | apply same_engine_refl] |].
    destruct (_ && _).
    + left. apply start_cases.
    + right. split; [(simpl; (reflexivity || exact Hp)) | apply same_engine_refl].
  - intros [= <-]. unfold idle. destruct (appState p) eqn:Hp; simpl.
    + right. split; [(simpl; (reflexivity || exact Hp)) |]. unfold same_engine. simpl. repeat split.
    + (simpl; (reflexivity || exact Hp)).
  - intros [= <-]. unfold reshape. simpl. destruct (appState p) eqn:Hp.
    + right. split; [reflexivity | apply same_engine_refl].
    + reflexivity.
Qed.

Lemma engine_absorbing (rnd : Glut3DApp.Rand) (trace : list (Z * Event)) :
  forall p p' : Page,
    appState p = STATE_ENGINE -> mainLoop rnd p trace = Some p' ->
    appState p' = STATE_ENGINE.
Proof.
  induction trace as [| [now e] trace IH]; intros p p' Hp Hrun.
  - injection Hrun as <-. exact Hp.
  - simpl in Hrun.
    destruct (dispatch rnd now e p) as [p1 |] eqn:Hd; [| discriminate].
    apply (IH p1 p'); [| exact Hrun].
    pose proof (dispatch_page rnd now e p p1 Hd) as H. now rewrite Hp in H.
Qed.


Lemma dispatch_winHeight (rnd : Glut3DApp.Rand) (now : Z) (e : Event)
    (p p' : Page) :
  winHeight p <> 0%Z -> dispatch rnd now e p = Some p' -> winHeight p' <> 0%Z.
Proof.
  intros Hh. destruct e as [key | button state x y | | w h]; simpl.
  - unfold keyboard. destruct (appState p) eqn:Hp.
    + destruct (_ || _).
      * intros [= <-]. now rewrite (proj2 (start_cases now p)).
      * destruct (key =? "027")%char; [discriminate |]. now intros [= <-].
    + destruct (Glut3DApp.keyboard key (sim p)); [| discriminate].
      now intros [= <-].
  - intros [= <-]. unfold mouse. destruct (appState p); [| exact Hh].
    destruct (_ || _); [exact Hh |].
    destruct (_ && _); [| exact Hh].
    now rewrite (proj2 (start_cases now p)).
  - intros [= <-]. unfold idle. destruct (appState p); exact Hh.
  - intros [= <-]. unfold reshape. simpl.
    destruct (h =? 0)%Z eqn:Hz; [lia | now apply Z.eqb_neq].
Qed.

End Landing.

(** X25. On the engine page of part_001 there is no way back: whatever
    keys, clicks, resizes and idle calls follow, the program stays on the
    engine page until it exits. *)
Theorem engine_page_is_final
    (rnd : Glut3DApp.Rand) (trace : list (Z * Glut3DLanding.Event))
    (p p' : Glut3DLanding.Page) :
  Glut3DLanding.appState p = Glut3DLanding.STATE_ENGINE ->
  Glut3DLanding.mainLoop rnd p trace = Some p' ->
  Glut3DLanding.appState p' = Glut3DLanding.STATE_ENGINE.
Proof. apply engine_absorbing. Qed.

Lemma engine_page_is_final_witness :
  let p := Glut3DLanding.mkPage Glut3DLanding.STATE_ENGINE 800 600
             Glut3DApp.initial in
  Glut3DLanding.appState
    (Glut3DLanding.reshape 640 0 (Glut3DLanding.mouse 0 0 320 400 7 p))
  = Glut3DLanding.STATE_ENGINE.
Proof.
  intros p.
  apply (engine_page_is_final (fun _ => 0)
           ((7, Glut3DLanding.EvMouse 0 0 320 400)
            :: (9, Glut3DLanding.EvReshape 640 0) :: nil)%Z%list p);
    reflexivity.
Defined.



(** X27. The window height stored by part_001 is never 0, so the aspect
    ratio it divides by is defined: a resize to height 0 is stored as 1,
    and no other callback touches the height. *)
Theorem window_height_never_zero
    (rnd : Glut3DApp.Rand) (trace : list (Z * Glut3DLanding.Event))
    (p' : Glut3DLanding.Page) :
  Glut3DLanding.mainLoop rnd Glut3DLanding.initial trace = Some p' ->
  Glut3DLanding.winHeight p' <> 0%Z.
Proof.
  assert (H : forall p, Glut3DLanding.winHeight p <> 0%Z ->
                        Glut3DLanding.mainLoop rnd p trace = Some p' ->
                        Glut3DLanding.winHeight p' <> 0%Z).
  { induction trace as [| [now e] trace IH]; intros p Hh Hrun.
    - now injection Hrun as <-.
    - simpl in Hrun.
      destruct (Glut3DLanding.dispatch rnd now e p) as [p1 |] eqn:Hd;
        [| discriminate].
      apply (IH p1); [| exact Hrun].
      now apply (dispatch_winHeight rnd now e p p1). }
  apply H. simpl. lia.
Qed.

Lemma window_height_never_zero_witness :
  Glut3DLanding.winHeight
    (Glut3DLanding.reshape 640 0 Glut3DLanding.initial) <> 0%Z.
Proof.
  apply (window_height_never_zero (fun _ => 0)
           ((3, Glut3DLanding.EvReshape 640 0) :: nil)%Z%list).
  reflexivity.
Defined.
